(** * Session handling of the users API: a shallow embedding

    The development follows the TypeScript sources:

    - [models/users.ts]            the [User] document;
    - [controllers/BaseController] [findById], [create];
    - [controllers/UsersController] [findOneByUsername], [generateTokens],
                                    [verifyRefreshToken];
    - [middleware/auth.ts]          [authenticate];
    - [routes/users.ts]             the [/register], [/login], [/logout] and
                                    [/refresh-token] handlers.

    The credential store (MongoDB through mongoose), the token codec
    (jsonwebtoken), the password hasher (bcrypt) and the avatar directory are
    external collaborators.  The store and the directory are explicit state;
    the codec and the hasher are interfaces the definitions are generic in. *)

From Stdlib Require Import ZArith Ascii.
From stdpp Require Import base option list strings pretty gmap sets fin_maps.

#[local] Set Warnings "-clear-no-such-hyp".

Local Open Scope Z_scope.
Local Open Scope string_scope.

(** ** Data model *)

(** A mongoose [Types.ObjectId] is a 96-bit number. *)
Abbreviation ObjectId := N.

(** [models/users.ts], [type User].  [tokens] is a JavaScript array: it is
    ordered and may hold a string more than once. *)
Record User := mkUser {
  username : string;
  password : string;
  avatar : string;
  email : string;
  tokens : list string;
  _id : ObjectId;
}.

(** [user.tokens = ts] on a hydrated document. *)
Definition set_tokens (ts : list string) (user : User) : User :=
  {| username := username user; password := password user;
     avatar := avatar user; email := email user;
     tokens := ts; _id := _id user |}.

(** The object signed into a token, [{ _id, random }].  [random] is the
    result of [Math.random()], a multiple of 2^-53 kept as its numerator. *)
Record JwtPayload := mkPayload {
  payload_id : ObjectId;
  payload_random : N;
}.

(** [jsonwebtoken]: [sign payload secret {expiresIn}] stamps the payload
    with the clock reading [iat]; [verify token secret] at clock reading
    [now] gives the payload, or [None] for the [err] of a malformed, forged
    or expired token. *)
Class Jwt := {
  jwt_sign : JwtPayload → string → string → Z → string;
  jwt_verify : string → string → Z → option JwtPayload;
}.

(** [bcrypt.hash password salt] and [bcrypt.compare password hash]. *)
Class Bcrypt := {
  bcrypt_hash : string → string → string;
  bcrypt_compare : string → string → bool;
}.

(** [process.env]. *)
Class ProcessEnv := {
  TOKEN_SECRET : string;
  ACCESS_TOKEN_EXPIRES : string;
  REFRESH_TOKEN_EXPIRES : string;
}.

(** What one request reads from outside the program: the clock when the
    presented token is verified, [Math.random()], the clock at each of the
    two [jwt.sign] calls, and the salt of [bcrypt.genSalt]. *)
Record Ambient := mkAmbient {
  clock : Z;
  random : N;
  iat_access : Z;
  iat_refresh : Z;
  salt : string;
}.

(** ** Effects *)

(** Calls that reach the credential store. *)
Inductive StoreOp :=
  | OpFindById (id : ObjectId)
  | OpFindOne (name : string)
  | OpCreate (name : string)
  | OpSave (id : ObjectId).

(** What an [await] can throw. *)
Inductive Exn :=
  | Rejected (reason : string)   (* a promise rejected with [reason] *)
  | TypeError                    (* property read on [undefined] *)
  | StoreError                   (* the store call failed *)
  | DuplicateKey                 (* unique index on [username] *)
  | ValidationError              (* the document does not fit the schema *)
  | CastError (value : string)   (* the string is no ObjectId *)
  | ENOENT (path : string).      (* [fs.unlink] of a missing file *)

(** The state the handlers act on: the [users] collection keyed by [_id], the
    files under [public/avatars/], the log of store calls made so far, and the
    schedule of store faults ([true]: the next store call throws; an empty
    schedule means the store answers every call). *)
Record World := mkWorld {
  users : gmap N User;
  files : gset string;
  trace : list StoreOp;
  outage : list bool;
}.

(** How an awaited computation ends: with a value, with an exception, or not
    at all (the promise is never settled, so the continuation never runs). *)
Inductive Completion (A : Type) :=
  | Done (a : A)
  | Threw (e : Exn)
  | Pending.
Arguments Done {A} a.
Arguments Threw {A} e.
Arguments Pending {A}.

Definition M (A : Type) : Type := World → Completion A * World.

Definition M_ret {A} (a : A) : M A := λ w, (Done a, w).

Definition M_bind {A B} (f : A → M B) (m : M A) : M B := λ w,
  match m w with
  | (Done a, w') => f a w'
  | (Threw e, w') => (Threw e, w')
  | (Pending, w') => (Pending, w')
  end.

#[global] Instance M_mret : MRet M := @M_ret.
#[global] Instance M_mbind : MBind M := @M_bind.

Definition throw {A} (e : Exn) : M A := λ w, (Threw e, w).

(** [try { body } catch (err) { handler err }].  A computation that never
    settles is not caught. *)
Definition try_catch {A} (body : M A) (handler : Exn → M A) : M A := λ w,
  match body w with
  | (Threw e, w') => handler e w'
  | r => r
  end.

(** The two ways an executor settles its promise. *)
Inductive Settled (A : Type) :=
  | resolve (a : A)
  | reject (reason : string).
Arguments resolve {A} a.
Arguments reject {A} reason.

(** [await new Promise((resolve, reject) => ...)] whose executor hands the
    work to an [async] callback.  The callback settles the promise by calling
    [resolve] or [reject]; an exception that escapes the callback only
    rejects the callback's own, unobserved promise, and the awaited one stays
    pending. *)
Definition await_promise {A} (callback : M (Settled A)) : M A := λ w,
  match callback w with
  | (Done (resolve a), w') => (Done a, w')
  | (Done (reject reason), w') => (Threw (Rejected reason), w')
  | (Threw _, w') => (Pending, w')
  | (Pending, w') => (Pending, w')
  end.

(** *** The credential store *)

(** Every store call is logged and consumes one entry of the fault
    schedule. *)
Definition store_call (op : StoreOp) : M () := λ w,
  let w' flt := mkWorld (users w) (files w) (trace w ++ [op]) flt in
  match outage w with
  | true :: rest => (Threw StoreError, w' rest)
  | false :: rest => (Done (), w' rest)
  | [] => (Done (), w' [])
  end.

Definition get_users : M (gmap N User) := λ w, (Done (users w), w).

Definition put_users (us : gmap N User) : M () := λ w,
  (Done (), mkWorld us (files w) (trace w) (outage w)).

(** [this.model.findById(id)], [BaseController.findById]. *)
Definition findById (id : ObjectId) : M (option User) :=
  store_call (OpFindById id) ;;
  us ← get_users ;
  mret (us !! id).

(** [user.save()]: the document is written under its [_id]. *)
Definition save (user : User) : M () :=
  store_call (OpSave (_id user)) ;;
  us ← get_users ;
  put_users (<[_id user := user]> us).

(** [this.model.find().byUsername(username)], that is
    [findOne({ username })], [UsersController.findOneByUsername]. *)
Definition by_username (name : string) (us : gmap N User) : option User :=
  snd <$> head (filter (λ kv, username kv.2 = name) (map_to_list us)).

Definition findOneByUsername (name : string) : M (option User) :=
  store_call (OpFindOne name) ;;
  us ← get_users ;
  mret (by_username name us).

(** [models/users.ts], [UserSchema]: the four string paths are
    [required: true], which for a string refuses the empty one. *)
Definition valid_user (user : User) : bool :=
  bool_decide (username user ≠ "" ∧ password user ≠ ""
               ∧ avatar user ≠ "" ∧ email user ≠ "").

(** [this.model.create(datum)], [BaseController.create], where [datum] is
    the document but for its [_id]: mongoose validates the document against
    the schema and throws a [ValidationError] before the store is asked;
    the schema's unique index refuses a second document with the same
    [username]; otherwise the document is stored under an [_id] no document
    has. *)
Definition create (datum : ObjectId → User) : M User :=
  us ← get_users ;
  let user := datum (fresh (dom us)) in
  if valid_user user then
    store_call (OpCreate (username user)) ;;
    match by_username (username user) us with
    | Some _ => throw DuplicateKey
    | None =>
        put_users (<[_id user := user]> us) ;;
        mret user
    end
  else throw ValidationError.

(** *** The avatar directory *)

(** [asyncUnlink(path)], [promisify(fs.unlink)]. *)
Definition asyncUnlink (path : string) : M () := λ w,
  if decide (path ∈ files w)
  then (Done (), mkWorld (users w) (files w ∖ {[path]}) (trace w) (outage w))
  else (Threw (ENOENT path), w).

(** ** [controllers/UsersController] *)

Record TokenPair := mkTokenPair {
  accessToken : string;
  refreshToken : string;
}.

Section UsersController.
Context `{!Jwt, !ProcessEnv}.

(** [generateTokens(_id)]: one [Math.random()] draw, two [jwt.sign] calls
    over the same object [{ _id, random }]. *)
Definition generateTokens (amb : Ambient) (id : ObjectId) : TokenPair :=
  let random := random amb in
  let accessToken :=
    jwt_sign (mkPayload id random) TOKEN_SECRET ACCESS_TOKEN_EXPIRES
             (iat_access amb) in
  let refreshToken :=
    jwt_sign (mkPayload id random) TOKEN_SECRET REFRESH_TOKEN_EXPIRES
             (iat_refresh amb) in
  mkTokenPair accessToken refreshToken.

(** The [async (err, userInfo) => ...] callback handed to [jwt.verify].
    [err] is never inspected: on a token that does not verify [userInfo]
    is [undefined] and [userInfo._id], which is read before the [try],
    throws. *)
Definition verifyRefreshToken_callback (refreshToken : string)
    (userInfo : option JwtPayload) : M (Settled User) :=
  userID ← (match userInfo with
            | Some userInfo => mret (payload_id userInfo)
            | None => throw TypeError
            end) ;
  try_catch
    (user ← findById userID ;
     match user with
     | None => mret (reject "fail")
     | Some user =>
         if bool_decide (refreshToken ∈ tokens user) then
           let tokens :=
             filter (λ token, token ≠ refreshToken) (tokens user) in
           let user := set_tokens tokens user in
           save user ;;
           mret (resolve user)
         else
           let user := set_tokens [] user in (* invalidate user tokens *)
           save user ;;
           mret (reject "fail")
     end)
    (λ err, mret (reject "fail")).

(** [verifyRefreshToken(refreshToken)]. *)
Definition verifyRefreshToken (amb : Ambient) (refreshToken : string)
    : M User :=
  await_promise
    (verifyRefreshToken_callback refreshToken
       (jwt_verify refreshToken TOKEN_SECRET (clock amb))).

End UsersController.

(** ** [middleware/auth.ts] *)

(** [String.prototype.split] with a one-character separator. *)
Fixpoint split (sep : ascii) (s : string) : list string :=
  match s with
  | EmptyString => [EmptyString]
  | String c s' =>
      if decide (c = sep) then EmptyString :: split sep s'
      else match split sep s' with
           | piece :: pieces => String c piece :: pieces
           | [] => [String c EmptyString]
           end
  end.

(** [authHeaders && authHeaders.split(' ')[1]]: [undefined] stays
    [undefined], the empty (falsy) header stays the empty string, and any
    other header gives what follows its first space, if anything. *)
Definition bearer (authHeaders : option string) : option string :=
  match authHeaders with
  | None => None
  | Some EmptyString => Some EmptyString
  | Some authHeaders => split " " authHeaders !! 1%nat
  end.

(** The part of [req] the middleware reads. *)
Record Request := mkRequest {
  authorization : option string;
}.

(** What the middleware hands to [next]: nothing, with [req.user] patched, or
    an error object carrying [status]. *)
Inductive Next :=
  | next (req_user : JwtPayload)
  | next_err (status : Z).

Section Middleware.
Context `{!Jwt, !ProcessEnv}.

Definition authenticate (amb : Ambient) (req : Request) : Next :=
  let authHeaders := authorization req in
  let token := bearer authHeaders in
  match token with
  | None => next_err 401 (* new Error('Missing Token') *)
  | Some token =>
      match jwt_verify token TOKEN_SECRET (clock amb) with
      | None => next_err 403
      | Some user => next user
      end
  end.

End Middleware.

(** Modelled from the spec: the token a request presents to
    [authenticate(accessToken)], if any.  The token travels in the
    [authorization] header, alone or behind a scheme word ([Bearer], or
    [JWT] as the tests send it); a header that is absent, or that holds
    nothing where the token would stand, presents no token. *)
Definition presented_token (req : Request) : option string :=
  match authorization req with
  | None => None
  | Some header =>
      let token :=
        match split " " header with
        | [] => EmptyString
        | [token] => token
        | _ :: token :: _ => token
        end in
      if decide (token = EmptyString) then None else Some token
  end.

(** ** [routes/users.ts] *)

Inductive Body :=
  | Text (s : string)
  | JsonError (error : string)
  | JsonCredentials (accessToken refreshToken : string) (id : ObjectId)
  | JsonUser (user : User).

Record Response := mkResponse {
  status : Z;
  body : Body;
}.

(** [res.sendStatus(code)] sends the status text as the body. *)
Definition sendStatus (code : Z) : Response :=
  mkResponse code
    (Text (if decide (code = 200) then "OK"
           else if decide (code = 400) then "Bad Request"
           else "")).

(** The file multer stored for the [avatar] field. *)
Record File := mkFile {
  path : string;
  mimetype : string;
}.

(** [req.body] and [req.file] of [/register]; an absent field is
    [undefined]. *)
Record RegisterRequest := mkRegisterRequest {
  reg_username : option string;
  reg_password : option string;
  reg_email : option string;
  reg_file : option File;
}.

(** [req.body] of [/login]. *)
Record LoginBody := mkLoginBody {
  login_username : option string;
  login_password : option string;
}.

(** [req.body] of [/logout] and of [/refresh-token]. *)
Record RefreshBody := mkRefreshBody {
  body_refreshToken : option string;
}.

(** [s.replaceAll(from, to)] for one-character strings. *)
Fixpoint replaceAll (from to : ascii) (s : string) : string :=
  match s with
  | EmptyString => EmptyString
  | String c s' =>
      String (if decide (c = from) then to else c) (replaceAll from to s')
  end.

(** [path.sep] of the platform the server runs on. *)
Class Platform := {
  path_sep : ascii;
}.

Section Routes.
Context `{!Jwt, !Bcrypt, !ProcessEnv, !Platform}.

(** [router.post('/register', upload.single('avatar'), ...)]. *)
Definition register (amb : Ambient) (req : RegisterRequest) : M Response :=
  match reg_username req, reg_password req, reg_email req, reg_file req with
  | Some username', Some password', Some email', Some file =>
      if decide (mimetype file ≠ "image/png" ∧ mimetype file ≠ "image/jpeg")
      then
        asyncUnlink (path file) ;;
        mret (mkResponse 400 (Text "File Type Unsupported"))
      else
        try_catch
          (user ← findOneByUsername username' ;
           match user with
           | Some _ =>
               asyncUnlink (path file) ;;
               mret (mkResponse 409 (Text "Username Taken"))
           | None =>
               let hashedPassword := bcrypt_hash password' (salt amb) in
               let avatar' := replaceAll path_sep "/" (path file) in
               user ← create (mkUser username' hashedPassword avatar'
                                     email' []) ;
               mret (mkResponse 201 (JsonUser user))
           end)
          (λ err, asyncUnlink (path file) ;; throw err)
  | _, _, _, file =>
      match file with
      | Some file => asyncUnlink (path file)
      | None => mret ()
      end ;;
      mret (mkResponse 400 (Text "Missing Arguments"))
  end.

(** [router.post('/login', ...)]. *)
Definition login (amb : Ambient) (req : LoginBody) : M Response :=
  match login_username req, login_password req with
  | Some username', Some password' =>
      user ← findOneByUsername username' ;
      match user with
      | None => mret (mkResponse 401 (JsonError "Authentication failed"))
      | Some user =>
          let passwordMatch := bcrypt_compare password' (password user) in
          if negb passwordMatch
          then mret (mkResponse 401 (JsonError "Authentication failed"))
          else
            let pair := generateTokens amb (_id user) in
            let user :=
              set_tokens (tokens user ++ [refreshToken pair]) user in
            save user ;;
            mret (mkResponse 200
                    (JsonCredentials (accessToken pair) (refreshToken pair)
                                     (_id user)))
      end
  | _, _ => mret (mkResponse 400 (Text "Missing Arguments"))
  end.

(** [router.post('/logout', ...)]. *)
Definition logout (amb : Ambient) (req : RefreshBody) : M Response :=
  match body_refreshToken req with
  | None => mret (sendStatus 400)
  | Some refreshToken =>
      try_catch
        (user ← verifyRefreshToken amb refreshToken ;
         mret (sendStatus 200))
        (λ err, mret (mkResponse 403 (Text "Invalid Request")))
  end.

(** [router.post('/refresh-token', ...)]. *)
Definition refresh_token (amb : Ambient) (req : RefreshBody) : M Response :=
  match body_refreshToken req with
  | None => mret (sendStatus 400)
  | Some oldRefreshToken =>
      try_catch
        (user ← verifyRefreshToken amb oldRefreshToken ;
         let pair := generateTokens amb (_id user) in
         let newRefreshToken := refreshToken pair in
         let user := set_tokens (tokens user ++ [newRefreshToken]) user in
         save user ;;
         mret (mkResponse 200
                 (JsonCredentials (accessToken pair) newRefreshToken
                                  (_id user))))
        (λ err, mret (mkResponse 403 (Text "Invalid Request")))
  end.

End Routes.

(** ** Sequences of rotation attempts *)

Section Replay.
Context `{!Jwt, !ProcessEnv}.


End Replay.

(** The live refresh tokens of the user stored under [id]. *)
Definition live_tokens (id : ObjectId) (w : World) : option (list string) :=
  tokens <$> users w !! id.

(** The store answers every call. *)
Definition store_up (w : World) : Prop := outage w = [].


(** A registration request failed when it was not answered with 201 and the
    new document. *)
Definition failed (r : Completion Response) : Prop :=
  ∀ user, r ≠ Done (mkResponse 201 (JsonUser user)).

(** What a failed registration leaves behind: the users collection as it
    was, and no file at the path of the upload. *)
Definition nothing_left (req : RegisterRequest) (w w' : World) : Prop :=
  users w' = users w
  ∧ ∀ file, reg_file req = Some file → path file ∉ files w'.

(** The ways a registration request fails: a required field is missing, the
    avatar is neither PNG nor JPEG, the username is already in the
    collection, or the store answers the lookup and then fails on the
    creation. *)
Inductive registration_fails (req : RegisterRequest) (w : World) : Prop :=
  | missing_field :
      reg_username req = None ∨ reg_password req = None
      ∨ reg_email req = None ∨ reg_file req = None →
      registration_fails req w
  | unsupported_type file :
      reg_file req = Some file →
      mimetype file ≠ "image/png" → mimetype file ≠ "image/jpeg" →
      registration_fails req w
  | username_taken name user :
      reg_username req = Some name →
      by_username name (users w) = Some user →
      registration_fails req w
  | creation_error rest :
      outage w = false :: true :: rest →
      registration_fails req w.

(** The characters of a string, and whether [c] is one of them. *)
Fixpoint chars (s : string) : list ascii :=
  match s with
  | EmptyString => []
  | String c s' => c :: chars s'
  end.

Definition has_char (c : ascii) (s : string) : Prop := c ∈ chars s.

(** ** A small deployment to run the handlers on *)

Module Demo.

(** First match in an association list. *)
Fixpoint assoc {A} (key : string) (table : list (string * A)) : option A :=
  match table with
  | [] => None
  | (k, v) :: table => if decide (k = key) then Some v else assoc key table
  end.

(** Tokens the demo codec accepts, all of them minted for user 7. *)
Definition minted : list (string * JwtPayload) :=
  [("r1", mkPayload 7 1); ("r2", mkPayload 7 2); ("r3", mkPayload 7 3)].

(** A codec whose tokens spell out what they sign, and which verifies by
    looking the token up among the minted ones. *)
Definition codec : Jwt := {|
  jwt_sign payload secret expiresIn iat :=
    pretty (payload_id payload) +:+ "." +:+ pretty (payload_random payload)
    +:+ "." +:+ expiresIn +:+ "." +:+ pretty iat +:+ "." +:+ secret;
  jwt_verify token secret now := assoc token minted;
|}.

Definition hasher : Bcrypt := {|
  bcrypt_hash password salt := "$" +:+ password;
  bcrypt_compare password hash := bool_decide (hash = "$" +:+ password);
|}.

(** Both expiry windows are configured to one hour. *)
Definition env : ProcessEnv := {|
  TOKEN_SECRET := "secret";
  ACCESS_TOKEN_EXPIRES := "1h";
  REFRESH_TOKEN_EXPIRES := "1h";
|}.

Definition posix : Platform := {| path_sep := "/" |}.

(** Both tokens are signed within the same second. *)
Definition amb : Ambient := mkAmbient 1000 42 1000 1000 "".

Definition alice : User :=
  mkUser "alice" "$pw" "public/avatars/1.png" "alice@example.com"
         ["r1"; "r2"] 7.

Definition world : World :=
  mkWorld {[ 7%N := alice ]} {[ "public/avatars/1.png" ]} [] [].

Definition upload : File := mkFile "public/avatars/2.png" "image/png".

(** The directory once multer has stored [upload]. *)
Definition world_uploaded : World :=
  mkWorld {[ 7%N := alice ]}
          {[ "public/avatars/1.png"; "public/avatars/2.png" ]} [] [].

End Demo.

(** ** The rest of [routes/users.ts]: uploads and [PUT /users] *)

(** [Partial<User>] as the [PUT /users] handler fills it: the paths that may
    be set. *)
Record UserParams := mkUserParams {
  params_username : option string;
  params_avatar : option string;
}.

(** A document with the paths of [params] that are set written over. *)
Definition apply_params (params : UserParams) (user : User) : User :=
  {| username := default (username user) (params_username params);
     password := password user;
     avatar := default (avatar user) (params_avatar params);
     email := email user;
     tokens := tokens user;
     _id := _id user |}.

(** [this.model.findByIdAndUpdate(id, params)], [BaseController.update]: one
    store call (logged as the write it is) that answers with the document
    as it was before the update, or [null] when there is none; the unique
    index refuses a [username] another document has. *)
Definition update (id : ObjectId) (params : UserParams) : M (option User) :=
  store_call (OpSave id) ;;
  us ← get_users ;
  match us !! id with
  | None => mret None
  | Some user =>
      match params_username params
            ≫= λ name, by_username name (delete id us) with
      | Some _ => throw DuplicateKey
      | None =>
          put_users (<[id := apply_params params user]> us) ;;
          mret (Some user)
      end
  end.

(** [upload.single('avatar')]: multer writes the uploaded file, if the
    request has one, under its path before the handler runs. *)
Definition multer_single (file : option File) : M () := λ w,
  match file with
  | Some file =>
      (Done (),
       mkWorld (users w) (files w ∪ {[path file]}) (trace w) (outage w))
  | None => (Done (), w)
  end.

(** What the client of a route gets: the handler's response, or the answer
    of Express to [next(err)], which carries [err.status]. *)
Inductive Reply (R : Type) :=
  | Answered (r : R)
  | Refused (status : Z).
Arguments Answered {R} r.
Arguments Refused {R} status.

(** The request of [PUT /users]: the [authorization] header, [req.body] and
    the file of the [avatar] field. *)
Record UpdateRequest := mkUpdateRequest {
  upd_authorization : option string;
  upd_username : option string;
  upd_file : option File;
}.

Section MoreRoutes.
Context `{!Jwt, !Bcrypt, !ProcessEnv, !Platform}.

(** [router.post('/register', upload.single('avatar'), ...)] with its
    middleware. *)
Definition post_register (amb : Ambient) (req : RegisterRequest)
    : M Response :=
  multer_single (reg_file req) ;;
  register amb req.

(** The [PUT /users] handler from [const oldUser = ...] on, once [params]
    is filled. *)
Definition update_user_write (userID : ObjectId) (params : UserParams)
    (file : option File) : M Response :=
  oldUser ← findById userID ;
  try_catch
    (user ← update userID params ;
     match file, oldUser with
     | Some _, Some oldUser => asyncUnlink (avatar oldUser)
     | _, _ => mret ()
     end ;;
     mret (mkResponse 200
             (match user with
              | Some user => JsonUser user
              | None => Text ""
              end)))
    (λ err,
       match file with
       | Some file => asyncUnlink (path file)
       | None => mret ()
       end ;;
       throw err).

(** The handler of [router.put('/', authenticate, upload.single('avatar'),
    ...)]; [req_user] is the [req.user] the middleware patched in. *)
Definition update_user (amb : Ambient) (req_user : JwtPayload)
    (req : UpdateRequest) : M Response :=
  let file := upd_file req in
  let userID := payload_id req_user in
  let avatar' := (λ file, replaceAll path_sep "/" (path file)) <$> file in
  match upd_username req, file with
  | None, None => mret (mkResponse 400 (Text "Missing Arguments"))
  | Some username', _ =>
      userCheck ← findOneByUsername username' ;
      match userCheck with
      | Some _ => mret (mkResponse 409 (Text "Username Taken"))
      | None =>
          update_user_write userID (mkUserParams (Some username') avatar')
                            file
      end
  | None, _ => update_user_write userID (mkUserParams None avatar') file
  end.

(** The document [/register] stores for a request. *)
Definition registered (amb : Ambient) (name pass mail : string) (file : File)
    (id : ObjectId) : User :=
  mkUser name (bcrypt_hash pass (salt amb))
         (replaceAll path_sep "/" (path file)) mail [] id.

(** [PUT /users] with its middleware: [authenticate], then multer, then the
    handler. *)
Definition put_user (amb : Ambient) (req : UpdateRequest)
    : M (Reply Response) :=
  match authenticate amb (mkRequest (upd_authorization req)) with
  | next_err status => mret (Refused status)
  | next req_user =>
      multer_single (upd_file req) ;;
      r ← update_user amb req_user req ;
      mret (Answered r)
  end.

End MoreRoutes.

(** ** What the store is expected to look like *)

(** Every document sits under its own [_id]. *)
Definition ids_consistent (us : gmap N User) : Prop :=
  ∀ k u, us !! k = Some u → _id u = k.

(** No two documents share a [username] (the schema's unique index). *)
Definition usernames_unique (us : gmap N User) : Prop :=
  ∀ k1 k2 u1 u2,
    us !! k1 = Some u1 → us !! k2 = Some u2 →
    username u1 = username u2 → k1 = k2.

Definition store_wf (us : gmap N User) : Prop :=
  ids_consistent us ∧ usernames_unique us.

(** The two documents differ in their [tokens] at most. *)
Definition same_but_tokens (u u' : User) : Prop :=
  u' = set_tokens (tokens u') u.

(** Between two states of the collection the same documents are there, and
    each differs in its [tokens] at most. *)
Definition tokens_only (us us' : gmap N User) : Prop :=
  ∀ k, option_Forall2 same_but_tokens (us !! k) (us' !! k).

(** ** Posts, comments and likes *)

(** [models/posts.ts], [type Post]. *)
Module Post.
Record t := mk {
  title : string;
  content : option string;
  media : option string;
  userID : ObjectId;
  _id : ObjectId;
}.
End Post.

(** [models/comments.ts], [type Comment]. *)
Module Comment.
Record t := mk {
  content : string;
  userID : ObjectId;
  postID : ObjectId;
  _id : ObjectId;
}.
End Comment.

(** [models/likes.ts], [type CompositeLikeID]: a like is nothing but its
    [_id], the pair of the user who likes and the post liked. *)
Record CompositeLikeID := mkLikeID {
  userID : ObjectId;
  postID : ObjectId;
}.

#[global] Instance CompositeLikeID_eq_dec : EqDecision CompositeLikeID.
Proof. solve_decision. Defined.

#[global] Instance CompositeLikeID_countable : Countable CompositeLikeID :=
  inj_countable' (λ id, (userID id, postID id))
                 (λ p, mkLikeID p.1 p.2)
                 (λ id, match id with mkLikeID _ _ => eq_refl end).

(** The three collections, the files under [public/media/], and the
    schedule of store faults (as in [World]). *)
Record Blog := mkBlog {
  posts : gmap N Post.t;
  comments : gmap N Comment.t;
  likes : gset CompositeLikeID;
  media_files : gset string;
  blog_outage : list bool;
}.

Definition MB (A : Type) : Type := Blog → Completion A * Blog.

Definition MB_ret {A} (a : A) : MB A := λ b, (Done a, b).

Definition MB_bind {A B} (f : A → MB B) (m : MB A) : MB B := λ b,
  match m b with
  | (Done a, b') => f a b'
  | (Threw e, b') => (Threw e, b')
  | (Pending, b') => (Pending, b')
  end.

#[global] Instance MB_mret : MRet MB := @MB_ret.
#[global] Instance MB_mbind : MBind MB := @MB_bind.

Definition blog_throw {A} (e : Exn) : MB A := λ b, (Threw e, b).

(** [try { body } catch (err) { handler err }]. *)
Definition blog_try_catch {A} (body : MB A) (handler : Exn → MB A)
    : MB A := λ b,
  match body b with
  | (Threw e, b') => handler e b'
  | r => r
  end.

(** Every store call consumes one entry of the fault schedule. *)
Definition blog_call : MB () := λ b,
  let b' flt :=
    mkBlog (posts b) (comments b) (likes b) (media_files b) flt in
  match blog_outage b with
  | true :: rest => (Threw StoreError, b' rest)
  | false :: rest => (Done (), b' rest)
  | [] => (Done (), b' [])
  end.

Definition blog_get : MB Blog := λ b, (Done b, b).

Definition put_posts (ps : gmap N Post.t) : MB () := λ b,
  (Done (),
   mkBlog ps (comments b) (likes b) (media_files b) (blog_outage b)).

Definition put_comments (cs : gmap N Comment.t) : MB () := λ b,
  (Done (), mkBlog (posts b) cs (likes b) (media_files b) (blog_outage b)).

Definition put_likes (ls : gset CompositeLikeID) : MB () := λ b,
  (Done (),
   mkBlog (posts b) (comments b) ls (media_files b) (blog_outage b)).

(** [asyncUnlink(path)] on the media directory. *)
Definition media_unlink (file : string) : MB () := λ b,
  if decide (file ∈ media_files b)
  then (Done (),
        mkBlog (posts b) (comments b) (likes b) (media_files b ∖ {[file]})
               (blog_outage b))
  else (Threw (ENOENT file), b).

(** [upload.single('media')]. *)
Definition multer_media (file : option File) : MB () := λ b,
  match file with
  | Some file =>
      (Done (),
       mkBlog (posts b) (comments b) (likes b)
              (media_files b ∪ {[path file]}) (blog_outage b))
  | None => (Done (), b)
  end.

(** *** Ids that come from the URL *)

(** [req.params.postID as unknown as Types.ObjectId]: what the routes pass
    where the controllers expect an id is the string of the URL.  Mongoose
    casts it to an ObjectId when it builds the query, and the cast of a
    malformed id fails. *)
Class Mongoose := {
  castObjectId : string → option ObjectId;
}.

Section Controllers.
Context `{!Mongoose}.

(** The cast of a query's id: a malformed id makes the controller's call
    throw before the store is asked. *)
Definition cast (value : string) : MB ObjectId :=
  match castObjectId value with
  | Some id => mret id
  | None => blog_throw (CastError value)
  end.

(** *** [controllers/LikesController] *)

(** [BaseController.findById] on likes, called with [{ userID, postID }]:
    [userID] comes from the verified token, [postID] from the URL. *)
Definition likes_findById (userID : ObjectId) (postID : string)
    : MB (option CompositeLikeID) :=
  postID ← cast postID ;
  let id := mkLikeID userID postID in
  blog_call ;;
  b ← blog_get ;
  mret (if decide (id ∈ likes b) then Some id else None).

(** [BaseController.create] on likes, called with
    [{ _id: { userID, postID } }]: a [postID] that does not cast fails the
    validation of the document; [_id] is unique. *)
Definition likes_create (userID : ObjectId) (postID : string)
    : MB CompositeLikeID :=
  match castObjectId postID with
  | None => blog_throw ValidationError
  | Some postID =>
      let id := mkLikeID userID postID in
      blog_call ;;
      b ← blog_get ;
      if decide (id ∈ likes b) then blog_throw DuplicateKey
      else put_likes (likes b ∪ {[id]}) ;; mret id
  end.

(** [BaseController.delete] on likes, [findByIdAndDelete]. *)
Definition likes_delete (userID : ObjectId) (postID : string)
    : MB (option CompositeLikeID) :=
  postID ← cast postID ;
  let id := mkLikeID userID postID in
  blog_call ;;
  b ← blog_get ;
  if decide (id ∈ likes b)
  then put_likes (likes b ∖ {[id]}) ;; mret (Some id)
  else mret None.

(** [LikesController.deleteByPostID]:
    [find({ '_id.postID': postID }).deleteMany()]. *)
Definition likes_deleteByPostID (post : string) : MB () :=
  post ← cast post ;
  blog_call ;;
  b ← blog_get ;
  put_likes (filter (λ id, postID id ≠ post) (likes b)).

(** *** [controllers/CommentsController] and [controllers/PostsController] *)

(** [CommentsController.deleteByPostID]:
    [find().byPostID(postID).deleteMany()]. *)
Definition comments_deleteByPostID (post : string) : MB () :=
  post ← cast post ;
  blog_call ;;
  b ← blog_get ;
  put_comments
    (filter (λ kc : N * Comment.t, Comment.postID kc.2 ≠ post) (comments b)).

(** [BaseController.findById] on posts. *)
Definition posts_findById (id : string) : MB (option Post.t) :=
  id ← cast id ;
  blog_call ;;
  b ← blog_get ;
  mret (posts b !! id).

(** [models/posts.ts], [postSchema]: [title] is [required: true], which
    refuses the empty string. *)
Definition valid_post (post : Post.t) : bool :=
  bool_decide (Post.title post ≠ "").

(** [BaseController.create] on posts; [datum] is the document but for its
    [_id].  Mongoose validates the document against the schema and throws a
    [ValidationError] before the store is asked. *)
Definition posts_create (datum : ObjectId → Post.t) : MB Post.t :=
  b ← blog_get ;
  let post := datum (fresh (dom (posts b))) in
  if valid_post post then
    blog_call ;;
    put_posts (<[Post._id post := post]> (posts b)) ;;
    mret post
  else blog_throw ValidationError.

(** [PostsController.delete]: the comments and the likes of the post go
    first, then [super.delete(id)], [findByIdAndDelete]. *)
Definition posts_delete (id : string) : MB (option Post.t) :=
  comments_deleteByPostID id ;;
  likes_deleteByPostID id ;;
  id ← cast id ;
  blog_call ;;
  b ← blog_get ;
  match posts b !! id with
  | Some post => put_posts (delete id (posts b)) ;; mret (Some post)
  | None => mret None
  end.

End Controllers.

(** *** [routes/likes.ts] and [routes/posts.ts] *)

Inductive BlogBody :=
  | Plain (s : string)
  | JsonLiked (liked : bool)
  | JsonPost (post : Post.t).

Record BlogResponse := mkBlogResponse {
  blog_status : Z;
  blog_body : BlogBody;
}.

(** [req.body] and [req.file] of [POST /posts]. *)
Record PostRequest := mkPostRequest {
  post_title : option string;
  post_content : option string;
  post_file : option File;
}.

Section BlogRoutes.
Context `{!Jwt, !ProcessEnv, !Platform, !Mongoose}.

(** A route behind [authenticate]: on [next(err)] Express answers with
    [err.status] and the rest of the chain does not run. *)
Definition guarded {R} (amb : Ambient) (auth : option string)
    (chain : JwtPayload → MB R) : MB (Reply R) :=
  match authenticate amb (mkRequest auth) with
  | next_err status => mret (Refused status)
  | next req_user => r ← chain req_user ; mret (Answered r)
  end.

(** [router.get('/:postID', authenticate, ...)] of the likes. *)
Definition get_like (amb : Ambient) (auth : option string)
    (postID : string) : MB (Reply BlogResponse) :=
  guarded amb auth (λ req_user,
    let userID := payload_id req_user in
    like ← likes_findById userID postID ;
    mret (mkBlogResponse 200 (JsonLiked (bool_decide (like ≠ None))))).

(** [router.post('/:postID', authenticate, ...)] of the likes. *)
Definition post_like (amb : Ambient) (auth : option string)
    (postID : string) : MB (Reply BlogResponse) :=
  guarded amb auth (λ req_user,
    let userID := payload_id req_user in
    like ← likes_findById userID postID ;
    match like with
    | Some _ => mret (mkBlogResponse 409 (Plain "Post Already Liked"))
    | None =>
        likes_create userID postID ;;
        mret (mkBlogResponse 201 (Plain "Created"))
    end).

(** [router.delete('/:postID', authenticate, ...)] of the likes. *)
Definition delete_like (amb : Ambient) (auth : option string)
    (postID : string) : MB (Reply BlogResponse) :=
  guarded amb auth (λ req_user,
    let userID := payload_id req_user in
    like ← likes_delete userID postID ;
    match like with
    | Some _ => mret (mkBlogResponse 200 (Plain "OK"))
    | None => mret (mkBlogResponse 404 (Plain "Not Found"))
    end).

(** [router.post('/', authenticate, upload.single('media'), ...)] of the
    posts. *)
Definition post_post (amb : Ambient) (auth : option string)
    (req : PostRequest) : MB (Reply BlogResponse) :=
  guarded amb auth (λ req_user,
    multer_media (post_file req) ;;
    let userID := payload_id req_user in
    let file := post_file req in
    match post_title req with
    | None =>
        match file with
        | Some file => media_unlink (path file)
        | None => mret ()
        end ;;
        mret (mkBlogResponse 400 (Plain "Missing Arguments"))
    | Some title =>
        let create media :=
          blog_try_catch
            (post ← posts_create
                       (Post.mk title (post_content req) media userID) ;
             mret (mkBlogResponse 201 (JsonPost post)))
            (λ err,
               match file with
               | Some file => media_unlink (path file)
               | None => mret ()
               end ;;
               blog_throw err) in
        match file with
        | Some file =>
            if decide (mimetype file ≠ "image/png"
                       ∧ mimetype file ≠ "image/jpeg")
            then
              media_unlink (path file) ;;
              mret (mkBlogResponse 400 (Plain "File Type Unsupported"))
            else create (Some (replaceAll path_sep "/" (path file)))
        | None => create None
        end
    end).

(** [router.delete('/:id', authenticate, ...)] of the posts. *)
Definition delete_post (amb : Ambient) (auth : option string)
    (id : string) : MB (Reply BlogResponse) :=
  guarded amb auth (λ req_user,
    post ← posts_findById id ;
    match post with
    | Some post =>
        posts_delete id ;;
        match Post.media post with
        | Some media => media_unlink media
        | None => mret ()
        end ;;
        mret (mkBlogResponse 200 (JsonPost post))
    | None => mret (mkBlogResponse 404 (Plain "Not Found"))
    end).

End BlogRoutes.

(** The store answers every call. *)
Definition blog_up (b : Blog) : Prop := blog_outage b = [].

(** ** A second deployment, whose codec accepts what it mints *)

Module Flow.

(** Expiry windows as deployed: a short one and a long one. *)
Definition env : ProcessEnv := {|
  TOKEN_SECRET := "secret";
  ACCESS_TOKEN_EXPIRES := "15m";
  REFRESH_TOKEN_EXPIRES := "7d";
|}.

(** The tokens the codec accepts: the pairs minted for user 7 with the
    nonces 42 and 43, a token for an id nobody is stored under, a token of
    user 8, and two older refresh tokens of user 7. *)
Definition minted : list (string * JwtPayload) :=
  [("7.42.15m.1000.secret", mkPayload 7 42);
   ("7.42.7d.1000.secret", mkPayload 7 42);
   ("7.43.15m.2000.secret", mkPayload 7 43);
   ("7.43.7d.2000.secret", mkPayload 7 43);
   ("9.1.7d.1000.secret", mkPayload 9 1);
   ("8.1.7d.1000.secret", mkPayload 8 1);
   ("r1", mkPayload 7 1); ("r2", mkPayload 7 2)].

Definition codec : Jwt := {|
  jwt_sign payload secret expiresIn iat :=
    pretty (payload_id payload) +:+ "." +:+ pretty (payload_random payload)
    +:+ "." +:+ expiresIn +:+ "." +:+ pretty iat +:+ "." +:+ secret;
  jwt_verify token secret now := Demo.assoc token minted;
|}.

(** Two requests, a second apart. *)
Definition amb1 : Ambient := mkAmbient 1000 42 1000 1000 "".
Definition amb2 : Ambient := mkAmbient 2000 43 2000 2000 "".

Definition bob : User :=
  mkUser "bob" "$hunter2" "public/avatars/3.png" "bob@example.com" [] 8.

(** alice with two live tokens, bob with none, both avatars on disk. *)
Definition world : World :=
  mkWorld {[ 7%N := Demo.alice; 8%N := bob ]}
          {[ "public/avatars/1.png"; "public/avatars/3.png" ]} [] [].

Definition upload : File := mkFile "public/avatars/4.png" "image/png".

(** Two posts of alice, the first with a picture; a comment of bob on each
    of them; bob likes the first post and alice the second. *)
Definition hello : Post.t :=
  Post.mk "Hello" (Some "first post") (Some "public/media/1.png") 7 1.

Definition blog : Blog :=
  mkBlog {[ 1%N := hello; 2%N := Post.mk "Again" None None 7 2 ]}
         {[ 1%N := Comment.mk "nice" 8 1 1; 2%N := Comment.mk "more" 8 2 2 ]}
         {[ mkLikeID 8 1; mkLikeID 7 2 ]}
         {[ "public/media/1.png" ]} [].

(** The value of a hexadecimal digit. *)
Definition hex_digit (c : ascii) : option N :=
  let n := N_of_ascii c in
  if ((48 <=? n) && (n <=? 57))%N then Some (n - 48)%N
  else if ((97 <=? n) && (n <=? 102))%N then Some (n - 87)%N
  else if ((65 <=? n) && (n <=? 70))%N then Some (n - 55)%N
  else None.

Fixpoint hex (acc : N) (s : string) : option N :=
  match s with
  | EmptyString => Some acc
  | String c s' =>
      match hex_digit c with
      | Some d => hex (16 * acc + d)%N s'
      | None => None
      end
  end.

(** The cast accepts the 24 hexadecimal digits of an ObjectId and nothing
    else. *)
Definition mongoose : Mongoose := {|
  castObjectId value :=
    if decide (String.length value = 24%nat) then hex 0 value else None;
|}.

(** The first post, the second post and a post that does not exist, as
    they stand in a URL. *)
Definition first_post : string := "000000000000000000000001".
Definition second_post : string := "000000000000000000000002".
Definition no_post : string := "00000000000000000000000a".

End Flow.


(** * Properties *)

(** ** Running the store *)

Ltac unfold_M :=
  cbv [mbind mret M_mbind M_mret M_bind M_ret throw try_catch await_promise
       get_users put_users].

Lemma store_call_up op w :
  store_up w →
  store_call op w
  = (Done (), mkWorld (users w) (files w) (trace w ++ [op]) []).
Proof. unfold store_up, store_call. by intros ->. Qed.

Lemma findById_up id w :
  store_up w →
  findById id w
  = (Done (users w !! id),
     mkWorld (users w) (files w) (trace w ++ [OpFindById id]) []).
Proof. intros Hup. unfold findById. unfold_M. by rewrite store_call_up. Qed.

Lemma save_up user w :
  store_up w →
  save user w
  = (Done (),
     mkWorld (<[_id user := user]> (users w)) (files w)
             (trace w ++ [OpSave (_id user)]) []).
Proof. intros Hup. unfold save. unfold_M. by rewrite store_call_up. Qed.

(** ** Removing a token from an array *)

Section FilterNe.
Implicit Types (t : string) (l : list string).






End FilterNe.

(** ** [verifyRefreshToken] *)

Section VerifyRefreshToken.
Context `{!Jwt, !ProcessEnv}.






(** C3. On a token that does not verify, the callback reads [userInfo._id]
    on [undefined] before its [try]: the promise is never settled, the
    store is not touched, and neither handler that awaits it answers. *)
Theorem verifyRefreshToken_unverified_never_settles amb t w :
  jwt_verify t TOKEN_SECRET (clock amb) = None →
  verifyRefreshToken amb t w = (Pending, w)
  ∧ refresh_token amb (mkRefreshBody (Some t)) w = (Pending, w)
  ∧ logout amb (mkRefreshBody (Some t)) w = (Pending, w).
Proof.
  intros Hverify.
  assert (verifyRefreshToken amb t w = (Pending, w)) as Hpending.
  { unfold verifyRefreshToken, verifyRefreshToken_callback.
    by rewrite Hverify. }
  unfold refresh_token, logout. cbn [body_refreshToken]. unfold_M.
  by rewrite Hpending.
Qed.






End VerifyRefreshToken.

(** ** [/logout] *)

Section Logout.
Context `{!Jwt, !ProcessEnv}.


End Logout.

(** ** [generateTokens] *)

Section GenerateTokens.
Context `{!Jwt, !ProcessEnv}.

(** C6, as the controller behaves.  One nonce is drawn per call and both
    tokens are signed over the same object [{ _id, random }] with the same
    secret; they differ only in the expiry window and the second they are
    signed in, so with equal windows and the same second the access token
    and the refresh token of one call are the same string. *)
Theorem generateTokens_shared_nonce amb id :
  let pair := generateTokens amb id in
  let payload := mkPayload id (random amb) in
  accessToken pair
  = jwt_sign payload TOKEN_SECRET ACCESS_TOKEN_EXPIRES (iat_access amb)
  ∧ refreshToken pair
    = jwt_sign payload TOKEN_SECRET REFRESH_TOKEN_EXPIRES (iat_refresh amb)
  ∧ (ACCESS_TOKEN_EXPIRES = REFRESH_TOKEN_EXPIRES →
     iat_access amb = iat_refresh amb →
     accessToken pair = refreshToken pair).
Proof.
  cbn. split_and!; [done..|]. by intros -> ->.
Qed.

End GenerateTokens.

(** ** [authenticate] *)

Lemma split_nonempty sep s : split sep s ≠ [].
Proof.
  destruct s as [|c s]; cbn; [done|].
  case_decide; [done|]. by destruct (split sep s).
Qed.

(** [s.split(sep)] has a second piece exactly when [sep] occurs in [s]. *)
Lemma split_second_None sep s :
  split sep s !! 1%nat = None ↔ ¬ has_char sep s.
Proof.
  unfold has_char. induction s as [|c s IH]; cbn.
  - split; [|done]. intros _. apply not_elem_of_nil.
  - case_decide as Hc.
    + subst c. pose proof (split_nonempty sep s).
      destruct (split sep s) as [|piece pieces]; [done|]. cbn.
      split; [done|]. intros []. left.
    + rewrite not_elem_of_cons, <- IH.
      pose proof (split_nonempty sep s).
      destruct (split sep s) as [|piece pieces]; [done|]. cbn.
      destruct pieces; naive_solver.
Qed.

Lemma split_no_sep sep s : ¬ has_char sep s → split sep s = [s].
Proof.
  unfold has_char. induction s as [|c s IH]; cbn; [done|].
  rewrite not_elem_of_cons. intros [Hc Hs].
  rewrite decide_False by done. by rewrite IH.
Qed.

Lemma split_at_first_sep sep a b :
  ¬ has_char sep a →
  split sep (a +:+ String sep b) = a :: split sep b.
Proof.
  unfold has_char. induction a as [|c a IH].
  - intros _. change (EmptyString +:+ String sep b) with (String sep b).
    cbn. by rewrite decide_True.
  - cbn [chars]. rewrite not_elem_of_cons. intros [Hc Ha].
    change (String c a +:+ String sep b)
      with (String c (a +:+ String sep b)).
    cbn [split]. rewrite decide_False by done. by rewrite IH.
Qed.

Lemma append_empty_r s : s +:+ EmptyString = s.
Proof.
  induction s as [|c s IH]; [done|].
  change (String c s +:+ EmptyString) with (String c (s +:+ EmptyString)).
  by rewrite IH.
Qed.

(** A string in which [sep] occurs falls into what stands before the first
    [sep] and what stands behind it. *)
Lemma split_at_first sep s :
  has_char sep s →
  ∃ a b, ¬ has_char sep a ∧ s = a +:+ String sep b.
Proof.
  unfold has_char. induction s as [|c s IH]; cbn [chars].
  - by intros ?%elem_of_nil.
  - destruct (decide (c = sep)) as [->|Hc].
    + intros _. exists EmptyString, s. split; [apply not_elem_of_nil|done].
    + rewrite elem_of_cons. intros [?|Hs]; [done|].
      destruct (IH Hs) as (a & b & Ha & ->).
      exists (String c a), b. split; [|done].
      cbn [chars]. rewrite not_elem_of_cons. by split; [congruence|].
Qed.

(** Behind a first piece without a space, [bearer] takes the next piece. *)
Lemma bearer_behind_first_space scheme rest :
  ¬ has_char " " scheme →
  bearer (Some (scheme +:+ String " " rest)) = head (split " " rest).
Proof.
  intros Hscheme. unfold bearer. destruct scheme as [|c scheme].
  - change (EmptyString +:+ String " " rest) with (String " " rest).
    cbn. by destruct (split " " rest).
  - change (String c scheme +:+ String " " rest)
      with (String c (scheme +:+ String " " rest)).
    cbv beta iota.
    change (String c (scheme +:+ String " " rest))
      with (String c scheme +:+ String " " rest).
    rewrite split_at_first_sep by done. cbn.
    by destruct (split " " rest).
Qed.

(** What [bearer] takes from a header: the empty string from the empty
    header, and otherwise the piece between the first space and the
    second. *)
Lemma bearer_piece header tok :
  bearer (Some header) = Some tok ↔
  header = "" ∧ tok = ""
  ∨ ∃ scheme,
      ¬ has_char " " scheme ∧ ¬ has_char " " tok
      ∧ (header = scheme +:+ " " +:+ tok
         ∨ ∃ rest, header = scheme +:+ " " +:+ tok +:+ " " +:+ rest).
Proof.
  split.
  - intros Hbearer.
    destruct (decide (header = "")) as [->|Hheader].
    { left. split; [done|]. cbn in Hbearer. congruence. }
    right.
    destruct (decide (" "%char ∈ chars header)) as [Hspace|Hnone].
    2:{ assert (bearer (Some header) = None) as Hnot; [|congruence].
        destruct header as [|c header]; [done|].
        by apply split_second_None. }
    destruct (split_at_first " " header Hspace) as (scheme & b & Hscheme & ->).
    rewrite bearer_behind_first_space in Hbearer by done.
    exists scheme. split; [done|].
    destruct (decide (" "%char ∈ chars b)) as [Hsecond|Hlast].
    + destruct (split_at_first " " b Hsecond) as (piece & rest & Hpiece & ->).
      rewrite split_at_first_sep in Hbearer by done.
      cbn in Hbearer. injection Hbearer as <-.
      split; [done|]. right. by exists rest.
    + rewrite split_no_sep in Hbearer by done.
      cbn in Hbearer. injection Hbearer as <-.
      split; [done|]. by left.
  - intros [[-> ->] | (scheme & Hscheme & Htok & [-> | [rest ->]])].
    + done.
    + change (scheme +:+ " " +:+ tok) with (scheme +:+ String " " tok).
      rewrite bearer_behind_first_space by done.
      by rewrite split_no_sep.
    + change (scheme +:+ " " +:+ tok +:+ " " +:+ rest)
        with (scheme +:+ String " " (tok +:+ String " " rest)).
      rewrite bearer_behind_first_space by done.
      by rewrite split_at_first_sep.
Qed.

Section Authenticate.
Context `{!Jwt, !ProcessEnv}.

(** [authenticate] through what [bearer] takes from the header. *)
Lemma authenticate_bearer amb req :
  let token := bearer (authorization req) in
  (authenticate amb req = next_err 401 ↔ token = None)
  ∧ (token = None ↔
     authorization req = None
     ∨ ∃ h, authorization req = Some h ∧ h ≠ EmptyString
            ∧ ¬ has_char " " h)
  ∧ (∀ tok, token = Some tok →
            authenticate amb req
            = match jwt_verify tok TOKEN_SECRET (clock amb) with
              | Some user => next user
              | None => next_err 403
              end).
Proof.
  intros token. subst token. unfold authenticate.
  split_and!.
  - destruct (bearer _) as [tok|]; [|done].
    destruct (jwt_verify _ _ _); naive_solver.
  - destruct (authorization req) as [[|c h]|]; cbn [bearer].
    + naive_solver.
    + rewrite split_second_None. naive_solver.
    + naive_solver.
  - by intros tok ->.
Qed.

(** C7. What [authenticate] answers is decided by the shape of the
    [authorization] header, not by whether a token is there.  It hands
    [next] an error with status 401 exactly when the header is absent or is
    a non-empty string without a space, a bare token included.  Any other
    header makes it verify one string: the empty string for the empty
    header, and otherwise the piece between the first space and the second
    (the rest of the header when there is no second space, the empty string
    when nothing follows the first), whatever stands before the first
    space.  It hands [next] an error with status 403 exactly when
    [jwt.verify] refuses that string, and lets the request through with the
    payload as [req.user] exactly when [jwt.verify] accepts it; no other
    status is produced. *)
Theorem authenticate_by_header_shape amb req :
  let verifies tok :=
    authorization req = Some "" ∧ tok = ""
    ∨ ∃ scheme,
        ¬ has_char " " scheme ∧ ¬ has_char " " tok
        ∧ (authorization req = Some (scheme +:+ " " +:+ tok)
           ∨ ∃ rest, authorization req
                     = Some (scheme +:+ " " +:+ tok +:+ " " +:+ rest)) in
  (authenticate amb req = next_err 401 ↔
     authorization req = None
     ∨ ∃ header, authorization req = Some header ∧ header ≠ ""
                 ∧ ¬ has_char " " header)
  ∧ (∀ tok, verifies tok →
            authenticate amb req
            = match jwt_verify tok TOKEN_SECRET (clock amb) with
              | Some user => next user
              | None => next_err 403
              end)
  ∧ (authenticate amb req = next_err 403 ↔
     ∃ tok, verifies tok ∧ jwt_verify tok TOKEN_SECRET (clock amb) = None)
  ∧ (∀ user, authenticate amb req = next user ↔
     ∃ tok, verifies tok
            ∧ jwt_verify tok TOKEN_SECRET (clock amb) = Some user)
  ∧ (∀ status, authenticate amb req = next_err status →
               status = 401 ∨ status = 403).
Proof.
  intros verifies.
  destruct (authenticate_bearer amb req) as (H401 & Hnone & Hsome).
  assert (∀ tok, verifies tok ↔ bearer (authorization req) = Some tok)
    as Hverifies.
  { intros tok. unfold verifies.
    destruct (authorization req) as [header|].
    - rewrite bearer_piece. split.
      + intros [[[= ->] ->] | (scheme & ? & ? & [[= ->] | [rest [= ->]]])].
        * by left.
        * right. exists scheme. split_and!; [done..|]. by left.
        * right. exists scheme. split_and!; [done..|]. right. by exists rest.
      + intros [[-> ->] | (scheme & ? & ? & [-> | [rest ->]])].
        * by left.
        * right. exists scheme. split_and!; [done..|]. by left.
        * right. exists scheme. split_and!; [done..|]. right. by exists rest.
    - cbn. split; [|done].
      intros [[? _] | (scheme & _ & _ & [? | [rest ?]])]; done. }
  assert (authenticate amb req = next_err 401
          ∨ ∃ tok, verifies tok
                   ∧ authenticate amb req
                     = match jwt_verify tok TOKEN_SECRET (clock amb) with
                       | Some user => next user
                       | None => next_err 403
                       end) as Hcases.
  { destruct (bearer (authorization req)) as [tok|] eqn:Hbearer.
    - right. exists tok. split; [by apply Hverifies | by apply Hsome].
    - left. by apply H401. }
  split_and!.
  - by rewrite H401, Hnone.
  - intros tok Htok%Hverifies. by apply Hsome.
  - split.
    + intros H403. destruct Hcases as [Hres|(tok & Htok & Hres)]; [congruence|].
      exists tok. split; [done|]. rewrite H403 in Hres.
      by destruct (jwt_verify _ _ _).
    + intros (tok & Htok%Hverifies & Hrefused).
      by rewrite (Hsome tok), Hrefused.
  - intros user. split.
    + intros Hnext. destruct Hcases as [Hres|(tok & Htok & Hres)]; [congruence|].
      exists tok. split; [done|]. rewrite Hnext in Hres.
      destruct (jwt_verify _ _ _); congruence.
    + intros (tok & Htok%Hverifies & Haccepted).
      by rewrite (Hsome tok), Haccepted.
  - intros status Hstatus.
    destruct Hcases as [Hres|(tok & Htok & Hres)]; rewrite Hres in Hstatus.
    + left. congruence.
    + right. destruct (jwt_verify _ _ _); congruence.
Qed.

End Authenticate.

(** ** Requests that lack a field *)

Section MissingArguments.
Context `{!Jwt, !Bcrypt, !ProcessEnv, !Platform}.

(** C8. A [/login] request without [username] or [password], and a
    [/logout] or [/refresh-token] request without [refreshToken], is
    answered with status 400 and leaves the world as it was: the users
    collection is the same and the log of store calls has not grown, so the
    store was neither read nor written. *)
Theorem missing_field_no_store_access amb w :
  (∀ req, login_username req = None ∨ login_password req = None →
          login amb req w
          = (Done (mkResponse 400 (Text "Missing Arguments")), w))
  ∧ (∀ req, body_refreshToken req = None →
            logout amb req w = (Done (sendStatus 400), w))
  ∧ (∀ req, body_refreshToken req = None →
            refresh_token amb req w = (Done (sendStatus 400), w)).
Proof.
  split_and!.
  - intros [[name|] [pass|]] [Hmiss|Hmiss]; by cbn in *.
  - intros [tok] Hmiss. cbn in Hmiss. by subst tok.
  - intros [tok] Hmiss. cbn in Hmiss. by subst tok.
Qed.

End MissingArguments.

(** ** [/register] *)

Lemma store_call_cases op w :
  ∃ w1, users w1 = users w ∧ files w1 = files w
        ∧ (store_call op w = (Done (), w1)
           ∨ store_call op w = (Threw StoreError, w1)).
Proof.
  unfold store_call. destruct (outage w) as [|[] rest]; eexists.
  - split_and!; [| |left; reflexivity]; done.
  - split_and!; [| |right; reflexivity]; done.
  - split_and!; [| |left; reflexivity]; done.
Qed.

Lemma asyncUnlink_cases file w :
  ∃ w1, users w1 = users w ∧ (file ∉ files w1)
        ∧ (asyncUnlink file w = (Done (), w1)
           ∨ asyncUnlink file w = (Threw (ENOENT file), w1)).
Proof.
  unfold asyncUnlink. destruct (decide (file ∈ files w)) as [Hin|Hin];
    eexists.
  - split_and!; [| |left; reflexivity]; [done|]. cbn.
    rewrite elem_of_difference, elem_of_singleton. tauto.
  - split_and!; [| |right; reflexivity]; done.
Qed.

Section Register.
Context `{!Bcrypt, !Platform}.

Lemma register_failed_nothing_left amb req w :
  failed (register amb req w).1 →
  nothing_left req w (register amb req w).2.
Proof.
  unfold failed, nothing_left, register.
  destruct req as [name pass mail file]. cbn [reg_username reg_password
    reg_email reg_file].
  assert (∀ f : File, ∀ w0, users w0 = users w →
    ∀ r : Response,
      users ((asyncUnlink (path f) ;; mret r) w0).2 = users w
      ∧ ∀ file, Some f = Some file →
                path file ∉ files ((asyncUnlink (path f) ;; mret r) w0).2)
    as Hunlink.
  { intros f w0 Hw0 r. unfold_M.
    destruct (asyncUnlink_cases (path f) w0) as (w1 & Hus & Hfs & [-> | ->]);
      cbn; (split; [congruence|]); by intros ? [= <-]. }
  assert (∀ w0, users w0 = users w →
    ∀ r : Response,
      users ((match file with
              | Some file => asyncUnlink (path file)
              | None => mret ()
              end ;; mret r) w0).2 = users w
      ∧ ∀ f, file = Some f →
             path f ∉ files ((match file with
                              | Some file => asyncUnlink (path file)
                              | None => mret ()
                              end ;; mret r) w0).2)
    as Hmissing.
  { intros w0 Hw0 r. destruct file as [f|]; [|by split].
    by apply Hunlink. }
  destruct name as [name|]; [|intros _; by apply Hmissing].
  destruct pass as [pass|]; [|intros _; by apply Hmissing].
  destruct mail as [mail|]; [|intros _; by apply Hmissing].
  destruct file as [f|]; [|intros _; by apply Hmissing].
  case_decide as Hmime; [intros _; by apply Hunlink|].
  unfold findOneByUsername, create. unfold_M.
  destruct (store_call_cases (OpFindOne name) w)
    as (w1 & Hus1 & Hfs1 & [-> | ->]); cbn.
  2:{ intros _.
      destruct (asyncUnlink_cases (path f) w1)
        as (w2 & Hus2 & Hfs2 & [-> | ->]);
        cbn; (split; [congruence|]); by intros ? [= <-]. }
  destruct (by_username name (users w1)) as [taken|] eqn:Htaken.
  { intros _.
    destruct (asyncUnlink_cases (path f) w1)
      as (w2 & Hus2 & Hfs2 & [-> | ->]); cbn.
    - split; [congruence|]. by intros ? [= <-].
    - destruct (asyncUnlink_cases (path f) w2)
        as (w3 & Hus3 & Hfs3 & [-> | ->]);
        cbn; (split; [congruence|]); by intros ? [= <-]. }
  destruct (valid_user _); cbn.
  2:{ intros _.
      destruct (asyncUnlink_cases (path f) w1)
        as (w2 & Hus2 & Hfs2 & [-> | ->]);
        cbn; (split; [congruence|]); by intros ? [= <-]. }
  destruct (store_call_cases (OpCreate name) w1)
    as (w2 & Hus2 & Hfs2 & [-> | ->]); cbn.
  2:{ intros _.
      destruct (asyncUnlink_cases (path f) w2)
        as (w3 & Hus3 & Hfs3 & [-> | ->]);
        cbn; (split; [congruence|]); by intros ? [= <-]. }
  rewrite Htaken. cbn. intros Hfailed. by edestruct Hfailed.
Qed.


Lemma registration_fails_failed amb req w :
  registration_fails req w → failed (register amb req w).1.
Proof.
  intros Hfails user.
  unfold register, findOneByUsername, create, store_call, asyncUnlink.
  unfold_M.
  destruct req as [[name|] [pass|] [mail|] [file|]];
    cbn [reg_username reg_password reg_email reg_file];
    try (by repeat case_decide).
  destruct Hfails as [Hmiss|f Hf Hpng Hjpeg|n u Hn Hu|rest Hrest];
    cbn in *.
  - naive_solver.
  - injection Hf as <-. rewrite decide_True by done.
    by case_decide.
  - injection Hn as <-. case_decide; [by case_decide|].
    destruct (outage w) as [|[] ?]; cbn; rewrite ?Hu;
      by repeat (case_decide; cbn).
  - case_decide; [by case_decide|]. cbn beta. rewrite Hrest. cbn.
    destruct (by_username name (users w)); cbn;
      [by repeat (case_decide; cbn)|].
    destruct (valid_user _); cbn; by repeat (case_decide; cbn).
Qed.

(** C10. A registration request that fails (a required field missing, an
    avatar that is neither PNG nor JPEG, a username already taken, a store
    error on creation) is not answered with 201, and a request that is not
    answered with 201 leaves the users collection as it was and no file at
    the path of the uploaded avatar. *)
Theorem register_failure_leaves_nothing amb req w :
  (registration_fails req w → failed (register amb req w).1)
  ∧ (failed (register amb req w).1 →
     nothing_left req w (register amb req w).2).
Proof.
  split.
  - apply registration_fails_failed.
  - apply register_failed_nothing_left.
Qed.

End Register.

(** * Further properties of the users API *)

(** ** Running the store, continued *)

Lemma findOneByUsername_up name w :
  store_up w →
  findOneByUsername name w
  = (Done (by_username name (users w)),
     mkWorld (users w) (files w) (trace w ++ [OpFindOne name]) []).
Proof.
  intros Hup. unfold findOneByUsername. unfold_M. by rewrite store_call_up.
Qed.

(** ** [/login] *)

Section Login.
Context `{!Jwt, !Bcrypt, !ProcessEnv}.


(** X2. A login under an unknown username and a login with a wrong password
    get the very same answer, 401 with [error: 'Authentication failed'], and
    neither changes the users collection or the avatar directory. *)
Theorem login_failure_uniform amb name pass w :
  store_up w →
  by_username name (users w) = None
  ∨ (∃ u, by_username name (users w) = Some u
          ∧ bcrypt_compare pass (password u) = false) →
  let rw := login amb (mkLoginBody (Some name) (Some pass)) w in
  rw.1 = Done (mkResponse 401 (JsonError "Authentication failed"))
  ∧ users rw.2 = users w
  ∧ files rw.2 = files w.
Proof.
  intros Hup Hcase rw. subst rw.
  unfold login. cbn [login_username login_password]. unfold_M.
  rewrite findOneByUsername_up by done. cbn [users].
  destruct Hcase as [-> | (u & -> & ->)]; by cbn.
Qed.

End Login.

(** ** [/refresh-token] and [/logout], all outcomes *)

Section SessionRoutes.
Context `{!Jwt, !ProcessEnv}.


Lemma verifyRefreshToken_unverified amb t w :
  jwt_verify t TOKEN_SECRET (clock amb) = None →
  verifyRefreshToken amb t w = (Pending, w).
Proof.
  intros Hverify. unfold verifyRefreshToken, verifyRefreshToken_callback.
  by rewrite Hverify.
Qed.

(** A token that verifies makes [verifyRefreshToken] settle, whatever the
    store does: with the document, or with ['fail']. *)
Lemma verifyRefreshToken_settles amb t p w :
  jwt_verify t TOKEN_SECRET (clock amb) = Some p →
  (∃ u, (verifyRefreshToken amb t w).1 = Done u)
  ∨ (verifyRefreshToken amb t w).1 = Threw (Rejected "fail").
Proof.
  intros Hverify.
  unfold verifyRefreshToken, verifyRefreshToken_callback. rewrite Hverify.
  unfold findById, save, store_call. unfold_M.
  destruct (outage w) as [|[] [|[] ?]]; cbn;
    destruct (users w !! payload_id p) as [u|]; cbn;
    try case_bool_decide; cbn; eauto.
Qed.

Lemma logout_verified_answers amb t p w :
  jwt_verify t TOKEN_SECRET (clock amb) = Some p →
  (logout amb (mkRefreshBody (Some t)) w).1 = Done (sendStatus 200)
  ∨ (logout amb (mkRefreshBody (Some t)) w).1
    = Done (mkResponse 403 (Text "Invalid Request")).
Proof.
  intros Hverify. unfold logout. cbn [body_refreshToken]. unfold_M.
  destruct (verifyRefreshToken_settles amb t p w Hverify)
    as [[u Hdone] | Hfail];
    destruct (verifyRefreshToken amb t w) as [r w1]; cbn in *; subst r;
    auto.
Qed.

Lemma refresh_token_verified_answers amb t p w :
  jwt_verify t TOKEN_SECRET (clock amb) = Some p →
  (∃ access refresh id,
     (refresh_token amb (mkRefreshBody (Some t)) w).1
     = Done (mkResponse 200 (JsonCredentials access refresh id)))
  ∨ (refresh_token amb (mkRefreshBody (Some t)) w).1
    = Done (mkResponse 403 (Text "Invalid Request")).
Proof.
  intros Hverify. unfold refresh_token. cbn [body_refreshToken]. unfold_M.
  destruct (verifyRefreshToken_settles amb t p w Hverify)
    as [[u Hdone] | Hfail];
    destruct (verifyRefreshToken amb t w) as [r w1]; cbn in *; subst r;
    auto.
  unfold save, store_call. unfold_M.
  destruct (outage w1) as [|[] ?]; cbn; eauto.
Qed.

(** X4. [/logout] and [/refresh-token] never end with an exception, store
    faults included: they answer 200, 400 or 403, or, exactly when a token
    is presented that does not verify, they do not answer at all. *)
Theorem session_routes_never_throw amb req w :
  let outcomes (r : Completion Response) :=
    (∀ e, r ≠ Threw e)
    ∧ (∀ resp, r = Done resp →
         status resp = 200 ∨ status resp = 400 ∨ status resp = 403)
    ∧ (r = Pending ↔
       ∃ t, body_refreshToken req = Some t
            ∧ jwt_verify t TOKEN_SECRET (clock amb) = None) in
  outcomes (logout amb req w).1 ∧ outcomes (refresh_token amb req w).1.
Proof.
  intros outcomes.
  assert (∀ r, (∃ resp, r = Done resp
                        ∧ (status resp = 200 ∨ status resp = 400
                           ∨ status resp = 403)) →
               (∀ t, body_refreshToken req = Some t →
                     jwt_verify t TOKEN_SECRET (clock amb) ≠ None) →
               outcomes r) as Hanswered.
  { intros r (resp & -> & Hstatus) Hnone. subst outcomes. cbn beta.
    split_and!; [done | by intros ? [= <-] |].
    split; [done|]. intros (t & Ht & Hverify). by destruct (Hnone t Ht). }
  destruct req as [[t|]]; cbn [body_refreshToken] in *.
  2:{ split; apply Hanswered; try done; eexists; (split; [done|]); cbn;
        auto. }
  destruct (jwt_verify t TOKEN_SECRET (clock amb)) as [p|] eqn:Hverify.
  - split; apply Hanswered; try (intros ? [= <-]; by rewrite Hverify).
    + destruct (logout_verified_answers amb t p w Hverify) as [-> | ->];
        eexists; (split; [done|]); cbn; auto.
    + destruct (refresh_token_verified_answers amb t p w Hverify)
        as [(? & ? & ? & ->) | ->];
        eexists; (split; [done|]); cbn; auto.
  - subst outcomes. unfold logout, refresh_token.
    cbn [body_refreshToken]. unfold_M.
    rewrite (verifyRefreshToken_unverified amb t w Hverify). cbn.
    split; split_and!; try done; split; eauto.
Qed.

End SessionRoutes.

(** ** Documents and usernames *)

Lemma by_username_Some name us u :
  by_username name us = Some u →
  ∃ k, us !! k = Some u ∧ username u = name.
Proof.
  unfold by_username. intros Hhead.
  destruct (head _) as [[k u']|] eqn:Hfound; simplify_eq/=.
  apply head_Some_elem_of, list_elem_of_filter in Hfound as [Hname Hin].
  apply elem_of_map_to_list in Hin. eauto.
Qed.

Lemma by_username_None name us :
  by_username name us = None ↔
  ∀ k u, us !! k = Some u → username u ≠ name.
Proof.
  unfold by_username. rewrite fmap_None, head_None. split.
  - intros Hnil k u Hk Hname.
    eapply (filter_nil_not_elem_of _ _ (k, u)); [done..|].
    by apply elem_of_map_to_list.
  - intros Hfree. destruct (filter _ _) as [|[k u] l] eqn:Hfilter; [done|].
    assert ((k, u) ∈ filter (λ kv : N * User, username kv.2 = name)
                       (map_to_list us)) as Hin
      by (rewrite Hfilter; left).
    apply list_elem_of_filter in Hin as [Hname Hin].
    apply elem_of_map_to_list in Hin. by destruct (Hfree k u).
Qed.

(** Where usernames are unique, the lookup by username finds the one
    document that has the name. *)
Lemma by_username_unique name us k u :
  usernames_unique us →
  us !! k = Some u → username u = name →
  by_username name us = Some u.
Proof.
  intros Huniq Hk Hname.
  destruct (by_username name us) as [u'|] eqn:Hfound.
  - apply by_username_Some in Hfound as (k' & Hk' & Hname').
    assert (k' = k) as -> by (eapply Huniq; [done..|congruence]).
    congruence.
  - rewrite by_username_None in Hfound. by destruct (Hfound k u).
Qed.

Lemma same_but_tokens_refl u : same_but_tokens u u.
Proof. by destruct u. Qed.

Lemma same_but_tokens_trans u1 u2 u3 :
  same_but_tokens u1 u2 → same_but_tokens u2 u3 → same_but_tokens u1 u3.
Proof. unfold same_but_tokens. intros -> ->. done. Qed.

Lemma tokens_only_refl us : tokens_only us us.
Proof.
  intros k. destruct (us !! k); constructor. apply same_but_tokens_refl.
Qed.

Lemma tokens_only_trans us1 us2 us3 :
  tokens_only us1 us2 → tokens_only us2 us3 → tokens_only us1 us3.
Proof.
  intros H12 H23 k. specialize (H12 k). specialize (H23 k).
  destruct H12; inversion H23; subst; constructor.
  by eapply same_but_tokens_trans.
Qed.

(** Saving a document that was found, with other tokens. *)
Lemma tokens_only_save us u ts :
  us !! _id u = Some u →
  tokens_only us (<[_id u := set_tokens ts u]> us).
Proof.
  intros Hu k. destruct (decide (k = _id u)) as [->|Hne].
  - rewrite lookup_insert_eq, Hu. by constructor.
  - rewrite lookup_insert_ne by done. apply tokens_only_refl.
Qed.

Lemma tokens_only_ids us us' :
  tokens_only us us' → ids_consistent us → ids_consistent us'.
Proof.
  intros Honly Hids k u' Hk. specialize (Honly k). rewrite Hk in Honly.
  inversion Honly as [u ? Hsame Hu|]; subst. symmetry in Hu.
  rewrite Hsame. cbn. by eapply Hids.
Qed.

Lemma tokens_only_usernames us us' :
  tokens_only us us' → usernames_unique us → usernames_unique us'.
Proof.
  intros Honly Huniq k1 k2 u1' u2' Hk1 Hk2 Hname.
  pose proof (Honly k1) as H1. pose proof (Honly k2) as H2.
  rewrite Hk1 in H1. rewrite Hk2 in H2.
  inversion H1 as [u1 ? Hs1 Hu1|]; inversion H2 as [u2 ? Hs2 Hu2|]; subst.
  symmetry in Hu1, Hu2. eapply Huniq; [done..|].
  rewrite Hs1, Hs2 in Hname. done.
Qed.

Lemma tokens_only_wf us us' :
  tokens_only us us' → store_wf us → store_wf us'.
Proof.
  intros Honly [Hids Huniq]. split;
    eauto using tokens_only_ids, tokens_only_usernames.
Qed.

(** ** What the session routes leave alone *)

Ltac run_store :=
  unfold findOneByUsername, findById, save, store_call; unfold_M.

Section SessionFrame.
Context `{!Jwt, !Bcrypt, !ProcessEnv}.

(** X5. When the token verifies but no document is stored under its id, or
    the store fails on the lookup or on the write, [verifyRefreshToken]
    refuses with ['fail'] and the users collection and the avatar directory
    are what they were: an unknown user revokes nothing, and a failed write
    leaves no partial change. *)
Theorem verifyRefreshToken_no_write amb t p w :
  jwt_verify t TOKEN_SECRET (clock amb) = Some p →
  users w !! payload_id p = None
  ∨ (∃ rest, outage w = true :: rest)
  ∨ (∃ rest, outage w = false :: true :: rest) →
  let rw := verifyRefreshToken amb t w in
  rw.1 = Threw (Rejected "fail")
  ∧ users rw.2 = users w
  ∧ files rw.2 = files w.
Proof.
  intros Hverify Hcase rw. subst rw.
  unfold verifyRefreshToken, verifyRefreshToken_callback. rewrite Hverify.
  run_store.
  destruct Hcase as [Hnone | [[rest ->] | [rest ->]]]; cbn.
  - destruct (outage w) as [|[] ?]; cbn; by rewrite ?Hnone.
  - done.
  - destruct (users w !! payload_id p) as [u|]; cbn; [|done].
    by case_bool_decide.
Qed.

Lemma verifyRefreshToken_tokens_only amb t w :
  ids_consistent (users w) →
  let rw := verifyRefreshToken amb t w in
  tokens_only (users w) (users rw.2)
  ∧ files rw.2 = files w
  ∧ ∀ a, rw.1 = Done a → users rw.2 !! _id a = Some a.
Proof.
  intros Hids rw. subst rw.
  unfold verifyRefreshToken, verifyRefreshToken_callback.
  destruct (jwt_verify t TOKEN_SECRET (clock amb)) as [p|];
    [|cbn; split_and!; [apply tokens_only_refl | done | done]].
  run_store.
  destruct (outage w) as [|[] [|[] ?]]; cbn;
    destruct (users w !! payload_id p) as [u|] eqn:Hu; cbn;
    try case_bool_decide; cbn;
    try (pose proof (Hids _ _ Hu) as Hid; rewrite <- Hid in Hu);
    (split_and!;
     [ first [apply tokens_only_refl | by apply tokens_only_save]
     | done
     | try done; intros a [= <-]; apply lookup_insert_eq ]).
Qed.

Lemma login_tokens_only amb req w :
  ids_consistent (users w) →
  tokens_only (users w) (users (login amb req w).2)
  ∧ files (login amb req w).2 = files w.
Proof.
  intros Hids. destruct req as [[name|] [pass|]]; unfold login;
    cbn [login_username login_password];
    try (split; [apply tokens_only_refl | done]).
  run_store.
  destruct (outage w) as [|[] [|[] ?]]; cbn;
    destruct (by_username name (users w)) as [u|] eqn:Hu; cbn;
    try destruct (bcrypt_compare pass (password u)); cbn;
    try (split; [apply tokens_only_refl | done]);
    apply by_username_Some in Hu as (k & Hk & _);
    pose proof (Hids _ _ Hk) as <-;
    (split; [by apply tokens_only_save | done]).
Qed.

Lemma logout_tokens_only amb req w :
  ids_consistent (users w) →
  tokens_only (users w) (users (logout amb req w).2)
  ∧ files (logout amb req w).2 = files w.
Proof.
  intros Hids. destruct req as [[t|]]; unfold logout;
    cbn [body_refreshToken]; [|split; [apply tokens_only_refl | done]].
  unfold_M.
  destruct (verifyRefreshToken_tokens_only amb t w Hids) as (Ht & Hf & _).
  destruct (verifyRefreshToken amb t w) as [[a|e|] w1]; by cbn in *.
Qed.

Lemma refresh_token_tokens_only amb req w :
  ids_consistent (users w) →
  tokens_only (users w) (users (refresh_token amb req w).2)
  ∧ files (refresh_token amb req w).2 = files w.
Proof.
  intros Hids. destruct req as [[t|]]; unfold refresh_token;
    cbn [body_refreshToken]; [|split; [apply tokens_only_refl | done]].
  unfold_M.
  destruct (verifyRefreshToken_tokens_only amb t w Hids) as (Ht & Hf & Ha).
  destruct (verifyRefreshToken amb t w) as [[a|e|] w1]; cbn in *;
    try done.
  specialize (Ha a eq_refl).
  unfold save, store_call. unfold_M.
  destruct (outage w1) as [|[] ?]; cbn; try done;
    (split; [|done]);
    (eapply tokens_only_trans; [exact Ht|]);
    by apply (tokens_only_save _ a).
Qed.

(** X6. Whatever the request and whatever the store does, [/login],
    [/logout] and [/refresh-token] leave the avatar directory as it is and,
    in a collection whose documents sit under their own ids, keep every
    document in place with the same username, password, email and avatar:
    the [tokens] arrays are all they ever change. *)
Theorem session_routes_touch_tokens_only amb w :
  ids_consistent (users w) →
  (∀ req, tokens_only (users w) (users (login amb req w).2)
          ∧ files (login amb req w).2 = files w)
  ∧ (∀ req, tokens_only (users w) (users (logout amb req w).2)
            ∧ files (logout amb req w).2 = files w)
  ∧ (∀ req, tokens_only (users w) (users (refresh_token amb req w).2)
            ∧ files (refresh_token amb req w).2 = files w).
Proof.
  intros Hids. split_and!; intros req.
  - by apply login_tokens_only.
  - by apply logout_tokens_only.
  - by apply refresh_token_tokens_only.
Qed.

(** X7. [/login], [/logout] and [/refresh-token] keep the store well formed,
    whatever the request and whatever the store does: afterwards every
    document still sits under its own id and no two documents share a
    username. *)
Theorem session_routes_keep_store_wf amb w :
  store_wf (users w) →
  (∀ req, store_wf (users (login amb req w).2))
  ∧ (∀ req, store_wf (users (logout amb req w).2))
  ∧ (∀ req, store_wf (users (refresh_token amb req w).2)).
Proof.
  intros Hwf. pose proof (proj1 Hwf) as Hids.
  split_and!; intros req; eapply tokens_only_wf; try done.
  - by apply login_tokens_only.
  - by apply logout_tokens_only.
  - by apply refresh_token_tokens_only.
Qed.

End SessionFrame.

(** ** [/register], the successful path and what follows it *)

Lemma by_username_insert_new name us k u :
  by_username name us = None →
  username u = name →
  by_username name (<[k := u]> us) = Some u.
Proof.
  intros Hfree Hname. rewrite by_username_None in Hfree.
  destruct (by_username name (<[k := u]> us)) as [u'|] eqn:Hfound.
  - apply by_username_Some in Hfound as (k' & Hk' & Hname').
    destruct (decide (k' = k)) as [->|Hne].
    + rewrite lookup_insert_eq in Hk'. congruence.
    + rewrite lookup_insert_ne in Hk' by done. by destruct (Hfree k' u').
  - rewrite by_username_None in Hfound.
    destruct (Hfound k u); [apply lookup_insert_eq | done].
Qed.

Lemma fresh_id_unused (us : gmap N User) : us !! fresh (dom us) = None.
Proof. apply not_elem_of_dom, is_fresh. Qed.

Lemma create_up datum w :
  store_up w →
  let user := datum (fresh (dom (users w))) in
  valid_user user = true →
  by_username (username user) (users w) = None →
  create datum w
  = (Done user,
     mkWorld (<[_id user := user]> (users w)) (files w)
             (trace w ++ [OpCreate (username user)]) []).
Proof.
  intros Hup user Hvalid Hfree. unfold create. unfold_M. cbn zeta.
  fold user. rewrite Hvalid.
  rewrite store_call_up by done. cbn. by rewrite Hfree.
Qed.

Lemma replaceAll_empty from to s :
  replaceAll from to s = "" ↔ s = "".
Proof. by destruct s. Qed.

Section Registration.
Context `{!Jwt, !Bcrypt, !ProcessEnv, !Platform}.

Lemma valid_user_registered amb name pass mail file id :
  name ≠ "" → bcrypt_hash pass (salt amb) ≠ "" → path file ≠ "" →
  mail ≠ "" →
  valid_user (registered amb name pass mail file id) = true.
Proof.
  intros Hname Hpass Hpath Hmail.
  apply bool_decide_eq_true_2. cbn. rewrite replaceAll_empty. done.
Qed.

Lemma register_ok amb name pass mail file w :
  name ≠ "" → bcrypt_hash pass (salt amb) ≠ "" → path file ≠ "" →
  mail ≠ "" →
  mimetype file = "image/png" ∨ mimetype file = "image/jpeg" →
  by_username name (users w) = None →
  store_up w →
  let id := fresh (dom (users w)) in
  let u := registered amb name pass mail file id in
  register amb (mkRegisterRequest (Some name) (Some pass) (Some mail)
                                  (Some file)) w
  = (Done (mkResponse 201 (JsonUser u)),
     mkWorld (<[id := u]> (users w)) (files w)
             (trace w ++ [OpFindOne name; OpCreate name]) []).
Proof.
  intros Hname Hpass Hpath Hmail Htype Hfree Hup id u. unfold register.
  cbn [reg_username reg_password reg_email reg_file].
  rewrite decide_False by (intros [? ?]; by destruct Htype).
  unfold_M. rewrite findOneByUsername_up by done. cbn [users].
  rewrite Hfree.
  rewrite create_up; [|done|by apply valid_user_registered|done].
  cbn. by rewrite <- app_assoc.
Qed.


Lemma post_register_ok amb name pass mail file w :
  name ≠ "" → bcrypt_hash pass (salt amb) ≠ "" → path file ≠ "" →
  mail ≠ "" →
  mimetype file = "image/png" ∨ mimetype file = "image/jpeg" →
  by_username name (users w) = None →
  store_up w →
  let id := fresh (dom (users w)) in
  let u := registered amb name pass mail file id in
  post_register amb (mkRegisterRequest (Some name) (Some pass) (Some mail)
                                       (Some file)) w
  = (Done (mkResponse 201 (JsonUser u)),
     mkWorld (<[id := u]> (users w)) (files w ∪ {[path file]})
             (trace w ++ [OpFindOne name; OpCreate name]) []).
Proof.
  intros Hname Hpass Hpath Hmail Htype Hfree Hup id u.
  unfold post_register, multer_single. cbn [reg_file]. unfold_M.
  by rewrite register_ok.
Qed.

(** X8. A registration with all four fields, none of the username, the
    email, the path of the upload and the hash of the password empty (the
    schema requires them), a PNG or JPEG avatar and a username nobody has,
    the store answering, is answered 201 with the new document: it has no
    tokens, the hash of the password rather than the password, and the
    uploaded file's path as avatar; it is stored under an id no document
    had, every other document stays, and the uploaded file is kept. *)
Theorem post_register_creates_user amb name pass mail file w :
  name ≠ "" → bcrypt_hash pass (salt amb) ≠ "" → path file ≠ "" →
  mail ≠ "" →
  mimetype file = "image/png" ∨ mimetype file = "image/jpeg" →
  by_username name (users w) = None →
  store_up w →
  let req := mkRegisterRequest (Some name) (Some pass) (Some mail)
                               (Some file) in
  let rw := post_register amb req w in
  ∃ u, rw.1 = Done (mkResponse 201 (JsonUser u))
       ∧ u = registered amb name pass mail file (_id u)
       ∧ users w !! _id u = None
       ∧ users rw.2 = <[_id u := u]> (users w)
       ∧ files rw.2 = files w ∪ {[path file]}
       ∧ store_up rw.2.
Proof.
  intros Hname Hpass Hpath Hmail Htype Hfree Hup req rw. subst rw req.
  rewrite post_register_ok by done.
  eexists. split_and!; [done | done | | done..].
  apply fresh_id_unused.
Qed.

(** X9. Registering, with fields the schema accepts (username, email,
    upload path and password hash not empty), and then logging in with the
    same username and password, with a hasher that recognises what it
    hashed and the store answering, is answered 200, and the one live token
    of the new user is the refresh token just issued. *)
Theorem register_then_login amb amb' name pass mail file w :
  name ≠ "" → bcrypt_hash pass (salt amb) ≠ "" → path file ≠ "" →
  mail ≠ "" →
  mimetype file = "image/png" ∨ mimetype file = "image/jpeg" →
  by_username name (users w) = None →
  store_up w →
  bcrypt_compare pass (bcrypt_hash pass (salt amb)) = true →
  let req := mkRegisterRequest (Some name) (Some pass) (Some mail)
                               (Some file) in
  let id := fresh (dom (users w)) in
  let pair := generateTokens amb' id in
  let rw := login amb' (mkLoginBody (Some name) (Some pass))
                  (post_register amb req w).2 in
  rw.1 = Done (mkResponse 200
                 (JsonCredentials (accessToken pair) (refreshToken pair) id))
  ∧ live_tokens id rw.2 = Some [refreshToken pair].
Proof.
  intros Hname Hpass Hpath Hmail Htype Hfree Hup Hhash req id pair rw.
  subst rw req.
  rewrite (post_register_ok amb name pass mail file w) by done.
  cbn [snd]. fold id.
  set (u := registered amb name pass mail file id).
  unfold login. cbn [login_username login_password]. unfold_M.
  rewrite findOneByUsername_up by done. cbn [users].
  rewrite (by_username_insert_new name (users w) id u) by done.
  cbn [password u registered]. rewrite Hhash. cbn [negb].
  rewrite save_up by done. unfold live_tokens. cbn.
  by rewrite lookup_insert_eq.
Qed.

(** X10. A second registration under a username that a registration,
    with fields the schema accepts (username, email, upload path and
    password hash not empty), has just taken is answered 409; it changes no
    document and its uploaded file is deleted again. *)
Theorem register_twice_conflict amb amb' name pass pass' mail mail'
    file file' w :
  name ≠ "" → bcrypt_hash pass (salt amb) ≠ "" → path file ≠ "" →
  mail ≠ "" →
  mimetype file = "image/png" ∨ mimetype file = "image/jpeg" →
  mimetype file' = "image/png" ∨ mimetype file' = "image/jpeg" →
  by_username name (users w) = None →
  store_up w →
  let w1 := (post_register amb
               (mkRegisterRequest (Some name) (Some pass) (Some mail)
                                  (Some file)) w).2 in
  let rw := post_register amb'
              (mkRegisterRequest (Some name) (Some pass') (Some mail')
                                 (Some file')) w1 in
  rw.1 = Done (mkResponse 409 (Text "Username Taken"))
  ∧ users rw.2 = users w1
  ∧ files rw.2 = files w1 ∖ {[path file']}.
Proof.
  intros Hname Hpass Hpath Hmail Htype Htype' Hfree Hup w1 rw.
  subst rw w1.
  rewrite (post_register_ok amb name pass mail file w) by done. cbn [snd].
  unfold post_register, multer_single, register.
  cbn [reg_username reg_password reg_email reg_file].
  rewrite decide_False by (intros [? ?]; by destruct Htype').
  unfold_M. rewrite findOneByUsername_up by done. cbn [users].
  rewrite (by_username_insert_new name (users w)) by done.
  unfold asyncUnlink. cbn [files].
  rewrite decide_True by (apply elem_of_union_r, elem_of_singleton; done).
  cbn. split_and!; [done..|].
  apply set_eq. intros x.
  rewrite !elem_of_difference, !elem_of_union, !elem_of_singleton. tauto.
Qed.

Lemma difference_singleton_absent (p : string) (X : gset string) :
  p ∉ X → X ∖ {[p]} = X.
Proof.
  intros Hp. apply set_eq. intros x.
  rewrite elem_of_difference, elem_of_singleton.
  split; [tauto|]. intros Hx. split; [done|]. by intros ->.
Qed.

Lemma asyncUnlink_files file w :
  ∃ w1, users w1 = users w ∧ files w1 = files w ∖ {[file]}
        ∧ (asyncUnlink file w = (Done (), w1)
           ∨ asyncUnlink file w = (Threw (ENOENT file), w1)).
Proof.
  unfold asyncUnlink. destruct (decide (file ∈ files w)) as [Hin|Hin];
    eexists.
  - split_and!; [| |left; reflexivity]; done.
  - split_and!; [| |right; reflexivity]; [done|].
    by rewrite difference_singleton_absent.
Qed.

Lemma register_failed_files amb req w :
  failed (register amb req w).1 →
  files (register amb req w).2
  = match reg_file req with
    | Some file => files w ∖ {[path file]}
    | None => files w
    end.
Proof.
  assert (∀ (p : string) (X : gset string), X ∖ {[p]} ∖ {[p]} = X ∖ {[p]})
    as Htwice.
  { intros p X. apply difference_singleton_absent.
    rewrite elem_of_difference, elem_of_singleton. tauto. }
  unfold failed, register.
  destruct req as [name pass mail file].
  cbn [reg_username reg_password reg_email reg_file].
  assert (∀ (f : File) w0 (r : Response), files w0 = files w →
            files ((asyncUnlink (path f) ;; mret r) w0).2
            = files w ∖ {[path f]}) as Hunlink.
  { intros f w0 r Hw0. unfold_M.
    destruct (asyncUnlink_files (path f) w0) as (w1 & _ & Hfs & [-> | ->]);
      cbn; congruence. }
  assert (∀ r : Response,
            files ((match file with
                    | Some file => asyncUnlink (path file)
                    | None => mret ()
                    end ;; mret r) w).2
            = match file with
              | Some file => files w ∖ {[path file]}
              | None => files w
              end) as Hmissing.
  { intros r. destruct file as [f|]; [by apply Hunlink | done]. }
  destruct name as [name|]; [|intros _; by apply Hmissing].
  destruct pass as [pass|]; [|intros _; by apply Hmissing].
  destruct mail as [mail|]; [|intros _; by apply Hmissing].
  destruct file as [f|]; [|intros _; by apply Hmissing].
  case_decide as Hmime; [intros _; by apply Hunlink|].
  unfold findOneByUsername, create. unfold_M.
  destruct (store_call_cases (OpFindOne name) w)
    as (w1 & Hus1 & Hfs1 & [-> | ->]); cbn.
  2:{ intros _.
      destruct (asyncUnlink_files (path f) w1)
        as (w2 & _ & Hfs2 & [-> | ->]); cbn; congruence. }
  destruct (by_username name (users w1)) as [taken|] eqn:Htaken.
  { intros _.
    destruct (asyncUnlink_files (path f) w1)
      as (w2 & _ & Hfs2 & [-> | ->]); cbn; [congruence|].
    destruct (asyncUnlink_files (path f) w2)
      as (w3 & _ & Hfs3 & [-> | ->]); cbn;
      rewrite Hfs3, Hfs2, Hfs1; apply Htwice. }
  destruct (valid_user _); cbn.
  2:{ intros _.
      destruct (asyncUnlink_files (path f) w1)
        as (w2 & _ & Hfs2 & [-> | ->]); cbn; congruence. }
  destruct (store_call_cases (OpCreate name) w1)
    as (w2 & Hus2 & Hfs2 & [-> | ->]); cbn.
  2:{ intros _.
      destruct (asyncUnlink_files (path f) w2)
        as (w3 & _ & Hfs3 & [-> | ->]); cbn; congruence. }
  rewrite Htaken. cbn. intros Hfailed. by edestruct Hfailed.
Qed.

(** X11. A registration that is not answered with 201 changes no document
    and leaves the avatar directory without the uploaded file and otherwise
    as it was before the upload: exactly as it was, when the name multer
    gave the upload was new. *)
Theorem post_register_failure_restores_files amb req w :
  let rw := post_register amb req w in
  failed rw.1 →
  users rw.2 = users w
  ∧ files rw.2
    = match reg_file req with
      | Some file => files w ∖ {[path file]}
      | None => files w
      end
  ∧ (∀ file, reg_file req = Some file → path file ∉ files w →
             files rw.2 = files w).
Proof.
  intros rw Hfailed. subst rw.
  set (w0 := (multer_single (reg_file req) w).2).
  assert (post_register amb req w = register amb req w0) as Hpost.
  { unfold post_register, w0, multer_single. unfold_M.
    by destruct (reg_file req). }
  assert (users w0 = users w) as Hus0
    by (unfold w0, multer_single; by destruct (reg_file req)).
  rewrite Hpost in *.
  pose proof (register_failed_nothing_left amb req w0 Hfailed) as [Hus _].
  pose proof (register_failed_files amb req w0 Hfailed) as Hfs.
  assert (files (register amb req w0).2
          = match reg_file req with
            | Some file => files w ∖ {[path file]}
            | None => files w
            end) as Hfiles.
  { rewrite Hfs. unfold w0, multer_single.
    destruct (reg_file req) as [f|]; [|done]. cbn.
    apply set_eq. intros x.
    rewrite !elem_of_difference, !elem_of_union, !elem_of_singleton.
    tauto. }
  split_and!; [congruence | exact Hfiles |].
  intros f Hf Hnew. rewrite Hfiles, Hf.
  by apply difference_singleton_absent.
Qed.

End Registration.

(** ** Sessions from login to revocation *)

Section SessionFlows.
Context `{!Jwt, !Bcrypt, !ProcessEnv}.









End SessionFlows.

(** ** The [authorization] header *)

Section AuthorizationHeader.
Context `{!Jwt, !ProcessEnv}.

(** X15. For a header made of a scheme word, one space and a token, neither
    with a space in it, [authenticate] takes the token and lets
    [jwt.verify] decide: the payload becomes [req.user], or the request is
    refused with 403.  The scheme word itself is never looked at, be it
    [Bearer], [JWT] or nothing at all, and whatever follows a second space
    is ignored. *)
Theorem authenticate_any_scheme amb scheme tok :
  ¬ has_char " " scheme →
  ¬ has_char " " tok →
  let verdict :=
    match jwt_verify tok TOKEN_SECRET (clock amb) with
    | Some user => next user
    | None => next_err 403
    end in
  authenticate amb (mkRequest (Some (scheme +:+ " " +:+ tok))) = verdict
  ∧ ∀ rest,
      authenticate amb
        (mkRequest (Some (scheme +:+ " " +:+ tok +:+ " " +:+ rest)))
      = verdict.
Proof.
  intros Hscheme Htok verdict.
  assert (∀ rest, bearer (Some (scheme +:+ String " " (tok +:+ rest)))
                  = head (split " " (tok +:+ rest))) as Hbearer.
  { intros rest. unfold bearer.
    destruct scheme as [|c scheme].
    - change (EmptyString +:+ String " " (tok +:+ rest))
        with (String " " (tok +:+ rest)).
      cbn. by destruct (split " " (tok +:+ rest)).
    - change (String c scheme +:+ String " " (tok +:+ rest))
        with (String c (scheme +:+ String " " (tok +:+ rest))).
      cbv beta iota.
      change (String c (scheme +:+ String " " (tok +:+ rest)))
        with (String c scheme +:+ String " " (tok +:+ rest)).
      rewrite split_at_first_sep by done. cbn.
      by destruct (split " " (tok +:+ rest)). }
  split.
  - unfold authenticate. cbn [authorization].
    specialize (Hbearer EmptyString). rewrite append_empty_r in Hbearer.
    change (scheme +:+ " " +:+ tok) with (scheme +:+ String " " tok).
    rewrite Hbearer, split_no_sep by done. done.
  - intros rest. unfold authenticate. cbn [authorization].
    change (scheme +:+ " " +:+ tok +:+ " " +:+ rest)
      with (scheme +:+ String " " (tok +:+ String " " rest)).
    rewrite Hbearer, split_at_first_sep by done. done.
Qed.

End AuthorizationHeader.

(** ** Paths *)

(** X16. [replaceAll] keeps the length of the string, leaves no occurrence
    of the replaced character when the replacement is another character,
    and changes nothing when the character does not occur or is replaced by
    itself, as for the avatar path on a platform whose [path.sep] is
    already the POSIX one. *)
Theorem replaceAll_separators from to s :
  length (chars (replaceAll from to s)) = length (chars s)
  ∧ (from ≠ to → ¬ has_char from (replaceAll from to s))
  ∧ (¬ has_char from s → replaceAll from to s = s)
  ∧ replaceAll from from s = s.
Proof.
  unfold has_char. split_and!.
  - induction s as [|c s IH]; cbn; [done|]. by rewrite IH.
  - intros Hne. induction s as [|c s IH]; cbn.
    + apply not_elem_of_nil.
    + rewrite not_elem_of_cons. split; [|done].
      case_decide; congruence.
  - induction s as [|c s IH]; cbn; [done|].
    rewrite not_elem_of_cons. intros [Hc Hs].
    rewrite decide_False by done. by rewrite IH.
  - induction s as [|c s IH]; cbn; [done|].
    rewrite IH. by case_decide; subst.
Qed.


(** ** [PUT /users] *)

Lemma update_up id params w :
  store_up w →
  update id params w
  = match users w !! id with
    | None =>
        (Done None,
         mkWorld (users w) (files w) (trace w ++ [OpSave id]) [])
    | Some user =>
        match params_username params
              ≫= λ name, by_username name (delete id (users w)) with
        | Some _ =>
            (Threw DuplicateKey,
             mkWorld (users w) (files w) (trace w ++ [OpSave id]) [])
        | None =>
            (Done (Some user),
             mkWorld (<[id := apply_params params user]> (users w))
                     (files w) (trace w ++ [OpSave id]) [])
        end
    end.
Proof.
  intros Hup. unfold update. unfold_M. rewrite store_call_up by done.
  cbn [users]. destruct (users w !! id) as [user|]; [|done].
  by case_match.
Qed.

Lemma by_username_delete_None name id us :
  by_username name us = None → by_username name (delete id us) = None.
Proof.
  rewrite !by_username_None. intros Hfree k u Hk.
  apply lookup_delete_Some in Hk as [_ Hk]. by eapply Hfree.
Qed.

Section UpdateUser.
Context `{!Jwt, !Bcrypt, !ProcessEnv, !Platform}.

(** What the handler does to the users collection, over all its outcomes:
    nothing, or the write of the new username and avatar into the document
    of the authenticated user, the username being one no document had. *)
Lemma update_user_users amb p req w :
  let w' := (update_user amb p req w).2 in
  users w' = users w
  ∨ ∃ u,
      users w !! payload_id p = Some u
      ∧ users w'
        = <[payload_id p :=
              apply_params
                (mkUserParams (upd_username req)
                   ((λ file, replaceAll path_sep "/" (path file))
                    <$> upd_file req)) u]> (users w)
      ∧ ∀ name, upd_username req = Some name →
                by_username name (users w) = None.
Proof.
  unfold update_user, update_user_write, update, findOneByUsername,
    findById, store_call, asyncUnlink.
  destruct req as [auth [name|] [file|]];
    cbn [upd_username upd_file fmap option_fmap option_map]; unfold_M;
    cbn [users files outage trace];
    try (by left).
  all: destruct (outage w) as [|[] [|[] [|[] ?]]];
    cbn [users files outage trace];
    try destruct (by_username name (users w)) eqn:Hfree;
    cbn [users files outage trace];
    try (by left);
    destruct (users w !! payload_id p) as [u|] eqn:Hu;
    cbn [users files outage trace mbind option_bind params_username];
    try rewrite (by_username_delete_None _ _ _ Hfree);
    cbn [users files outage trace];
    repeat (case_decide; cbn [users files outage trace fst snd]);
    try (by left);
    try (right; exists u; split_and!; [done | done | by intros ? [= <-]]).
  all: right; exists u; split_and!; [done | done | by intros ? [=]].
Qed.

Lemma put_user_users amb req w :
  let w' := (put_user amb req w).2 in
  users w' = users w
  ∨ ∃ p u,
      authenticate amb (mkRequest (upd_authorization req)) = next p
      ∧ users w !! payload_id p = Some u
      ∧ users w'
        = <[payload_id p :=
              apply_params
                (mkUserParams (upd_username req)
                   ((λ file, replaceAll path_sep "/" (path file))
                    <$> upd_file req)) u]> (users w)
      ∧ ∀ name, upd_username req = Some name →
                by_username name (users w) = None.
Proof.
  unfold put_user.
  destruct (authenticate amb (mkRequest (upd_authorization req)))
    as [p|status]; [|by left].
  unfold_M.
  set (w0 := (multer_single (upd_file req) w).2).
  assert (multer_single (upd_file req) w = (Done (), w0)) as ->
    by (unfold w0, multer_single; by destruct (upd_file req)).
  assert (users w0 = users w) as Hus0
    by (unfold w0, multer_single; by destruct (upd_file req)).
  pose proof (update_user_users amb p req w0) as Husers. cbn zeta in Husers.
  destruct (update_user amb p req w0) as [[r|e|] w1]; cbn in *;
    rewrite Hus0 in Husers;
    (destruct Husers as [Hsame | (u & Hu & Hw1 & Hfree)];
     [by left | right; by exists p, u]).
Qed.

(** X17. Over all its outcomes, [PUT /users] adds and removes no document
    and changes no password, email, [tokens] array or id; the one document
    it may write to is the one stored under the id of the token that
    authenticated the request. *)
Theorem put_user_changes_own_profile_only amb req w :
  let w' := (put_user amb req w).2 in
  ∀ k,
    option_Forall2
      (λ u u',
         password u' = password u ∧ email u' = email u
         ∧ tokens u' = tokens u ∧ _id u' = _id u
         ∧ (u' = u
            ∨ ∃ p, authenticate amb (mkRequest (upd_authorization req))
                   = next p
                   ∧ payload_id p = k))
      (users w !! k) (users w' !! k).
Proof.
  intros w' k. subst w'.
  destruct (put_user_users amb req w)
    as [-> | (p & u & Hauth & Hu & -> & _)].
  - destruct (users w !! k); constructor. split_and!; auto.
  - destruct (decide (k = payload_id p)) as [->|Hne].
    + rewrite lookup_insert_eq, Hu. constructor. split_and!; eauto.
    + rewrite lookup_insert_ne by done.
      destruct (users w !! k); constructor. split_and!; auto.
Qed.

(** X18. Renaming: for an authenticated request that carries a username no
    document has and no file, the user being stored and the store
    answering, [PUT /users] is answered 200 with the document as it was
    before the update, and the stored document gets the new username and is
    otherwise unchanged, live tokens included. *)
Theorem put_user_renames amb auth p name u w :
  authenticate amb (mkRequest auth) = next p →
  users w !! payload_id p = Some u →
  by_username name (users w) = None →
  store_up w →
  let rw := put_user amb (mkUpdateRequest auth (Some name) None) w in
  rw.1 = Done (Answered (mkResponse 200 (JsonUser u)))
  ∧ users rw.2
    = <[payload_id p :=
          mkUser name (password u) (avatar u) (email u) (tokens u) (_id u)]>
        (users w)
  ∧ files rw.2 = files w.
Proof.
  intros Hauth Hu Hfree Hup rw. subst rw.
  unfold put_user. cbn [upd_authorization upd_file]. rewrite Hauth.
  unfold multer_single, update_user, update_user_write.
  cbn [upd_username upd_file fmap option_fmap option_map]. unfold_M.
  rewrite findOneByUsername_up by done. cbn [users]. rewrite Hfree.
  rewrite findById_up by done. cbn [users].
  rewrite update_up by done. cbn [users]. rewrite Hu.
  cbn [params_username mbind option_bind].
  rewrite (by_username_delete_None _ _ _ Hfree). done.
Qed.

(** X19. A username some document already has, the requester's own
    included, is refused: the authenticated request is answered 409, no
    document changes, and a file uploaded with the request is left in the
    avatar directory. *)
Theorem put_user_username_taken amb auth p name file k v w :
  authenticate amb (mkRequest auth) = next p →
  users w !! k = Some v →
  username v = name →
  store_up w →
  let rw := put_user amb (mkUpdateRequest auth (Some name) file) w in
  rw.1 = Done (Answered (mkResponse 409 (Text "Username Taken")))
  ∧ users rw.2 = users w
  ∧ files rw.2 = match file with
                 | Some file => files w ∪ {[path file]}
                 | None => files w
                 end.
Proof.
  intros Hauth Hk Hname Hup rw. subst rw.
  unfold put_user. cbn [upd_authorization upd_file]. rewrite Hauth.
  unfold update_user. cbn [upd_username upd_file]. unfold_M.
  destruct (by_username name (users w)) as [taken|] eqn:Htaken.
  2:{ rewrite by_username_None in Htaken. by destruct (Htaken k v). }
  destruct file as [file|]; unfold multer_single;
    rewrite findOneByUsername_up by done; cbn [users]; by rewrite Htaken.
Qed.

(** X20. A new avatar: for an authenticated request with a file under a
    new name and no username, the user being stored with the old avatar on
    disk and the store answering, [PUT /users] is answered 200 with the
    document as it was; the stored document points to the uploaded file,
    whatever its type, the old avatar file is deleted and the new one
    kept. *)
Theorem put_user_replaces_avatar amb auth p file u w :
  authenticate amb (mkRequest auth) = next p →
  users w !! payload_id p = Some u →
  avatar u ∈ files w →
  path file ∉ files w →
  store_up w →
  let rw := put_user amb (mkUpdateRequest auth None (Some file)) w in
  rw.1 = Done (Answered (mkResponse 200 (JsonUser u)))
  ∧ users rw.2
    = <[payload_id p :=
          mkUser (username u) (password u)
                 (replaceAll path_sep "/" (path file))
                 (email u) (tokens u) (_id u)]> (users w)
  ∧ files rw.2 = (files w ∪ {[path file]}) ∖ {[avatar u]}
  ∧ path file ∈ files rw.2
  ∧ avatar u ∉ files rw.2.
Proof.
  intros Hauth Hu Hold Hnew Hup rw. subst rw.
  unfold put_user. cbn [upd_authorization upd_file]. rewrite Hauth.
  unfold multer_single, update_user, update_user_write.
  cbn [upd_username upd_file fmap option_fmap option_map]. unfold_M.
  rewrite findById_up by done. cbn [users].
  rewrite update_up by done. cbn [users]. rewrite Hu.
  cbn [params_username mbind option_bind].
  unfold asyncUnlink. cbn [files].
  rewrite decide_True by (by apply elem_of_union_l).
  cbn. split_and!; [done..| |].
  - apply elem_of_difference. split.
    + apply elem_of_union_r. by apply elem_of_singleton.
    + rewrite elem_of_singleton. intros Heq. by rewrite Heq in Hnew.
  - intros [_ Hnot]%elem_of_difference. apply Hnot.
    by apply elem_of_singleton.
Qed.

(** X21. A token that verifies for an id no document is stored under still
    gets through: the request is answered 200 with an empty body, no
    document is created or changed, and a file uploaded with the request
    stays in the avatar directory. *)
Theorem put_user_unknown_user amb auth p name file w :
  authenticate amb (mkRequest auth) = next p →
  users w !! payload_id p = None →
  (∀ n, name = Some n → by_username n (users w) = None) →
  name ≠ None ∨ file ≠ None →
  store_up w →
  let rw := put_user amb (mkUpdateRequest auth name file) w in
  rw.1 = Done (Answered (mkResponse 200 (Text "")))
  ∧ users rw.2 = users w
  ∧ files rw.2 = match file with
                 | Some file => files w ∪ {[path file]}
                 | None => files w
                 end.
Proof.
  intros Hauth Hu Hfree Hsome Hup rw. subst rw.
  unfold put_user. cbn [upd_authorization upd_file]. rewrite Hauth.
  unfold update_user, update_user_write.
  cbn [upd_username upd_file]. unfold_M.
  destruct name as [n|], file as [f|]; unfold multer_single;
    cbn [fmap option_fmap option_map];
    try (by destruct Hsome);
    rewrite ?findOneByUsername_up by done; cbn [users];
    rewrite ?(Hfree _ eq_refl);
    rewrite findById_up by done; cbn [users];
    rewrite update_up by done; cbn [users]; by rewrite Hu.
Qed.

(** X22. When the old avatar is no longer on disk, replacing it goes
    wrong half way: the document is updated first, the deletion of the old
    file then throws, and the handler deletes the file just uploaded and
    rethrows, so that no answer is sent and the stored avatar names a file
    that does not exist. *)
Theorem put_user_missing_old_avatar amb auth p file u w :
  authenticate amb (mkRequest auth) = next p →
  users w !! payload_id p = Some u →
  avatar u ∉ files w →
  path file ≠ avatar u →
  store_up w →
  let rw := put_user amb (mkUpdateRequest auth None (Some file)) w in
  rw.1 = Threw (ENOENT (avatar u))
  ∧ avatar <$> users rw.2 !! payload_id p
    = Some (replaceAll path_sep "/" (path file))
  ∧ path file ∉ files rw.2.
Proof.
  intros Hauth Hu Hold Hne Hup rw. subst rw.
  unfold put_user. cbn [upd_authorization upd_file]. rewrite Hauth.
  unfold multer_single, update_user, update_user_write.
  cbn [upd_username upd_file fmap option_fmap option_map]. unfold_M.
  rewrite findById_up by done. cbn [users].
  rewrite update_up by done. cbn [users]. rewrite Hu.
  cbn [params_username mbind option_bind].
  unfold asyncUnlink. cbn [files].
  rewrite decide_False.
  2:{ rewrite elem_of_union, elem_of_singleton. intros [?|?]; congruence. }
  rewrite decide_True by (apply elem_of_union_r; by apply elem_of_singleton).
  cbn. rewrite lookup_insert_eq. split_and!; [done..|].
  rewrite elem_of_difference, elem_of_singleton. tauto.
Qed.

End UpdateUser.

(** ** Registration and renaming keep the store well formed *)

Lemma store_wf_insert_new us u :
  store_wf us →
  us !! _id u = None →
  by_username (username u) us = None →
  store_wf (<[_id u := u]> us).
Proof.
  intros [Hids Huniq] Hnew Hfree. rewrite by_username_None in Hfree. split.
  - intros k v Hk. destruct (decide (k = _id u)) as [->|Hne].
    + rewrite lookup_insert_eq in Hk. congruence.
    + rewrite lookup_insert_ne in Hk by done. by apply Hids.
  - intros k1 k2 u1 u2 Hk1 Hk2 Hname.
    destruct (decide (k1 = _id u)) as [->|Hne1];
      destruct (decide (k2 = _id u)) as [->|Hne2]; [done|..].
    + rewrite lookup_insert_eq in Hk1. rewrite lookup_insert_ne in Hk2 by done.
      injection Hk1 as <-. by destruct (Hfree k2 u2).
    + rewrite lookup_insert_eq in Hk2. rewrite lookup_insert_ne in Hk1 by done.
      injection Hk2 as <-. by destruct (Hfree k1 u1).
    + rewrite lookup_insert_ne in Hk1, Hk2 by done. by eapply Huniq.
Qed.

Lemma store_wf_apply_params us k u params :
  store_wf us →
  us !! k = Some u →
  (∀ name, params_username params = Some name →
           by_username name us = None) →
  store_wf (<[k := apply_params params u]> us).
Proof.
  intros [Hids Huniq] Hu Hfree. split.
  - intros k' v Hk. destruct (decide (k' = k)) as [->|Hne].
    + rewrite lookup_insert_eq in Hk. injection Hk as <-. cbn.
      by apply Hids.
    + rewrite lookup_insert_ne in Hk by done. by apply Hids.
  - assert (∀ k' v, k' ≠ k → us !! k' = Some v →
                    username v ≠ username (apply_params params u))
      as Hother.
    { intros k' v Hne Hv. cbn.
      destruct (params_username params) as [name|] eqn:Hname; cbn.
      - specialize (Hfree name eq_refl). rewrite by_username_None in Hfree.
        by eapply Hfree.
      - intros Heq. apply Hne. by eapply Huniq. }
    intros k1 k2 u1 u2 Hk1 Hk2 Hname.
    destruct (decide (k1 = k)) as [->|Hne1];
      destruct (decide (k2 = k)) as [->|Hne2]; [done|..].
    + rewrite lookup_insert_eq in Hk1. rewrite lookup_insert_ne in Hk2 by done.
      injection Hk1 as <-. by destruct (Hother k2 u2).
    + rewrite lookup_insert_eq in Hk2. rewrite lookup_insert_ne in Hk1 by done.
      injection Hk2 as <-. by destruct (Hother k1 u1).
    + rewrite lookup_insert_ne in Hk1, Hk2 by done. by eapply Huniq.
Qed.

Section ProfileRoutesInvariant.
Context `{!Jwt, !Bcrypt, !ProcessEnv, !Platform}.

(** What [/register] does to the users collection, over all its outcomes:
    nothing, or the insertion of one document under an id and a username no
    document had. *)
Lemma register_users amb req w :
  let w' := (register amb req w).2 in
  users w' = users w
  ∨ ∃ u, users w !! _id u = None
         ∧ by_username (username u) (users w) = None
         ∧ users w' = <[_id u := u]> (users w).
Proof.
  unfold register, create, findOneByUsername, store_call, asyncUnlink.
  destruct req as [[name|] [pass|] [mail|] [file|]];
    cbn [reg_username reg_password reg_email reg_file]; unfold_M;
    cbn [users files outage trace];
    try (left; by repeat (case_decide; cbn [users files outage trace snd])).
  case_decide;
    [left; by repeat (case_decide; cbn [users files outage trace snd])|].
  destruct (outage w) as [|[] [|[] ?]];
    cbn [users files outage trace username];
    destruct (by_username name (users w)) eqn:Hfree;
    cbn [users files outage trace username];
    rewrite ?Hfree; cbn [users files outage trace username snd];
    try (left; by repeat (case_decide; cbn [users files outage trace snd])).
  all: destruct (valid_user _);
    cbn [users files outage trace username];
    rewrite ?Hfree; cbn [users files outage trace username snd];
    try (left; by repeat (case_decide; cbn [users files outage trace snd])).
  all: right; eexists; split_and!; [| |reflexivity];
    cbn [_id username]; [apply fresh_id_unused | done].
Qed.

(** X23. [/register] and [PUT /users], middleware included, keep the store
    well formed whatever the request and whatever the store does:
    afterwards every document still sits under its own id and no two
    documents share a username. *)
Theorem profile_routes_keep_store_wf amb w :
  store_wf (users w) →
  (∀ req, store_wf (users (post_register amb req w).2))
  ∧ (∀ req, store_wf (users (put_user amb req w).2)).
Proof.
  intros Hwf. split; intros req.
  - set (w0 := (multer_single (reg_file req) w).2).
    assert (post_register amb req w = register amb req w0) as ->.
    { unfold post_register, w0, multer_single. unfold_M.
      by destruct (reg_file req). }
    assert (users w0 = users w) as Hus0
      by (unfold w0, multer_single; by destruct (reg_file req)).
    destruct (register_users amb req w0)
      as [-> | (u & Hnew & Hfree & ->)]; rewrite Hus0 in *; [done|].
    by apply store_wf_insert_new.
  - destruct (put_user_users amb req w)
      as [-> | (p & u & _ & Hu & -> & Hfree)]; [done|].
    by apply store_wf_apply_params.
Qed.

End ProfileRoutesInvariant.

(** * Likes and posts *)

Ltac unfold_MB :=
  cbv [mbind mret MB_mbind MB_mret MB_bind MB_ret blog_throw blog_try_catch
       blog_get put_posts put_comments put_likes].

Ltac run_blog :=
  unfold posts_delete;
  unfold likes_findById, likes_create, likes_delete, likes_deleteByPostID,
    comments_deleteByPostID, posts_findById, posts_create, cast, blog_call;
  unfold_MB;
  cbn [posts comments likes media_files blog_outage].

Section Likes.
Context `{!Jwt, !ProcessEnv, !Mongoose}.

(** X24. A user likes a post at most once: for an authenticated request
    whose [:postID] is a well-formed id, the store answering,
    [POST /likes/:postID] is answered 201 and adds the like of the token's
    user for that post when there was none, and is answered 409 and changes
    nothing when there was one; either way [GET /likes/:postID] then says
    [liked: true] for that user, and posts and comments are untouched. *)
Theorem post_like_once amb auth p postID post b :
  authenticate amb (mkRequest auth) = next p →
  castObjectId postID = Some post →
  blog_up b →
  let id := mkLikeID (payload_id p) post in
  let rb := post_like amb auth postID b in
  (id ∉ likes b →
     rb.1 = Done (Answered (mkBlogResponse 201 (Plain "Created")))
     ∧ likes rb.2 = likes b ∪ {[id]})
  ∧ (id ∈ likes b →
     rb.1 = Done (Answered (mkBlogResponse 409 (Plain "Post Already Liked")))
     ∧ likes rb.2 = likes b)
  ∧ posts rb.2 = posts b
  ∧ comments rb.2 = comments b
  ∧ (get_like amb auth postID rb.2).1
    = Done (Answered (mkBlogResponse 200 (JsonLiked true))).
Proof.
  intros Hauth Hcast Hup id rb. subst rb. unfold blog_up in Hup.
  unfold post_like, get_like, guarded. rewrite Hauth. run_blog.
  rewrite Hcast, Hup. cbn. fold id.
  destruct (decide (id ∈ likes b)) as [Hin|Hout]; cbn.
  - rewrite decide_True by done. cbn. by split_and!.
  - rewrite decide_False by done. cbn.
    rewrite decide_True by (apply elem_of_union_r; by apply elem_of_singleton).
    cbn. by split_and!.
Qed.

(** X25. Liking and unliking cancel out: for a well-formed [:postID] of a
    post the user had not liked, [POST /likes/:postID] followed by
    [DELETE /likes/:postID] is answered 201 and then 200 and leaves the
    likes exactly as they were; a [DELETE] for a post the user has not liked
    is answered 404 and changes nothing. *)
Theorem like_then_unlike_restores amb auth p postID post b :
  authenticate amb (mkRequest auth) = next p →
  castObjectId postID = Some post →
  blog_up b →
  mkLikeID (payload_id p) post ∉ likes b →
  let liked := post_like amb auth postID b in
  let back := delete_like amb auth postID liked.2 in
  let never := delete_like amb auth postID b in
  liked.1 = Done (Answered (mkBlogResponse 201 (Plain "Created")))
  ∧ back.1 = Done (Answered (mkBlogResponse 200 (Plain "OK")))
  ∧ likes back.2 = likes b
  ∧ never.1 = Done (Answered (mkBlogResponse 404 (Plain "Not Found")))
  ∧ likes never.2 = likes b.
Proof.
  intros Hauth Hcast Hup Hout liked back never. subst never back liked.
  unfold blog_up in Hup.
  assert (mkLikeID (payload_id p) post
          ∈ likes b ∪ {[mkLikeID (payload_id p) post]}) as Hin
    by (apply elem_of_union_r; by apply elem_of_singleton).
  unfold post_like, delete_like, guarded. rewrite Hauth. run_blog.
  rewrite Hcast, Hup. cbn [posts comments likes media_files blog_outage].
  repeat (case_decide; try done;
          cbn [posts comments likes media_files blog_outage fst snd]).
  split_and!; try done.
  apply set_eq. intros x.
  rewrite elem_of_difference, elem_of_union, elem_of_singleton.
  split; [tauto|]. intros Hx. split; [by left|]. by intros ->.
Qed.

(** X26. Over all their outcomes, store faults, refused requests and
    malformed ids included, the three likes routes touch no post, no
    comment and no media file, and the only like they can add or remove is
    the one of the authenticated user for the post the URL names. *)
Theorem likes_routes_frame amb auth postID b :
  ∀ b',
    b' = (get_like amb auth postID b).2
    ∨ b' = (post_like amb auth postID b).2
    ∨ b' = (delete_like amb auth postID b).2 →
    posts b' = posts b
    ∧ comments b' = comments b
    ∧ media_files b' = media_files b
    ∧ ∀ id, (id ∈ likes b' ↔ id ∈ likes b)
            ∨ ∃ p post, authenticate amb (mkRequest auth) = next p
                        ∧ castObjectId postID = Some post
                        ∧ id = mkLikeID (payload_id p) post.
Proof.
  intros b' Hb'.
  unfold get_like, post_like, delete_like, guarded in Hb'.
  destruct (authenticate amb (mkRequest auth)) as [p|status] eqn:Hauth.
  2:{ destruct Hb' as [-> | [-> | ->]]; cbn; split_and!; try done;
        intros id; left; reflexivity. }
  revert Hb'. run_blog.
  destruct (castObjectId postID) as [post|] eqn:Hcast.
  2:{ intros [-> | [-> | ->]]; cbn; split_and!; try done;
        intros id; left; reflexivity. }
  assert (∀ ls : gset CompositeLikeID,
            (∀ id, id ≠ mkLikeID (payload_id p) post →
                   id ∈ ls ↔ id ∈ likes b) →
            ∀ id, (id ∈ ls ↔ id ∈ likes b)
                  ∨ ∃ p0 post0, next p = next p0
                                ∧ Some post = Some post0
                                ∧ id = mkLikeID (payload_id p0) post0)
    as Hown.
  { intros ls Hls id.
    destruct (decide (id = mkLikeID (payload_id p) post)) as [->|Hne].
    - right. by exists p, post.
    - left. by apply Hls. }
  destruct (blog_outage b) as [|[] [|[] ?]];
    cbn [posts comments likes media_files blog_outage];
    intros [-> | [-> | ->]];
    repeat (case_decide;
            cbn [posts comments likes media_files blog_outage fst snd]);
    cbn [posts comments likes media_files blog_outage fst snd];
    (split_and!; [done..|]); apply Hown; intros id Hne;
    rewrite ?elem_of_union, ?elem_of_difference, ?elem_of_singleton;
    tauto.
Qed.

End Likes.

Section Posts.
Context `{!Jwt, !ProcessEnv, !Platform, !Mongoose}.

(** X27. Deleting a post takes its comments and likes with it: for an
    authenticated request whose [:id] is the id of a stored post, its media
    file, if any, on disk and the store answering, [DELETE /posts/:id] is
    answered 200 with the post; afterwards the post is gone, the comments
    and likes left are exactly those of other posts, the other posts are
    untouched, and the media file is deleted. *)
Theorem delete_post_cascades amb auth p raw id post b :
  authenticate amb (mkRequest auth) = next p →
  castObjectId raw = Some id →
  blog_up b →
  posts b !! id = Some post →
  (∀ file, Post.media post = Some file → file ∈ media_files b) →
  let rb := delete_post amb auth raw b in
  rb.1 = Done (Answered (mkBlogResponse 200 (JsonPost post)))
  ∧ posts rb.2 = delete id (posts b)
  ∧ (∀ k c, comments rb.2 !! k = Some c ↔
            comments b !! k = Some c ∧ Comment.postID c ≠ id)
  ∧ (∀ like, like ∈ likes rb.2 ↔ like ∈ likes b ∧ postID like ≠ id)
  ∧ media_files rb.2
    = match Post.media post with
      | Some file => media_files b ∖ {[file]}
      | None => media_files b
      end.
Proof.
  intros Hauth Hcast Hup Hpost Hmedia rb. subst rb. unfold blog_up in Hup.
  unfold delete_post, guarded, media_unlink. rewrite Hauth. run_blog.
  rewrite Hcast, Hup. cbn [posts comments likes media_files blog_outage].
  rewrite Hpost. cbn [posts comments likes media_files blog_outage].
  rewrite ?Hpost. cbn [posts comments likes media_files blog_outage].
  assert (∀ k c,
            filter (λ kc : N * Comment.t, Comment.postID kc.2 ≠ id)
                   (comments b) !! k = Some c
            ↔ comments b !! k = Some c ∧ Comment.postID c ≠ id) as Hcomments.
  { intros k c. by rewrite map_lookup_filter_Some. }
  assert (∀ like,
            like ∈ filter (λ l, postID l ≠ id) (likes b)
            ↔ like ∈ likes b ∧ postID like ≠ id) as Hlikes.
  { intros like. rewrite elem_of_filter. tauto. }
  destruct (Post.media post) as [file|];
    cbn [posts comments likes media_files blog_outage fst snd].
  - rewrite decide_True by (by apply Hmedia).
    cbn [posts comments likes media_files blog_outage fst snd].
    by split_and!.
  - by split_and!.
Qed.

(** X28. The cascade is not atomic: when the store answers the lookup and
    the two [deleteMany] calls and then fails on the deletion of the post
    itself, the request ends with the store's error, the comments and likes
    of the post are gone already, and the post and its media file are still
    there. *)
Theorem delete_post_not_atomic amb auth p raw id post rest b :
  authenticate amb (mkRequest auth) = next p →
  castObjectId raw = Some id →
  blog_outage b = false :: false :: false :: true :: rest →
  posts b !! id = Some post →
  let rb := delete_post amb auth raw b in
  rb.1 = Threw StoreError
  ∧ posts rb.2 = posts b
  ∧ media_files rb.2 = media_files b
  ∧ (∀ k c, comments rb.2 !! k = Some c → Comment.postID c ≠ id)
  ∧ (∀ like, like ∈ likes rb.2 → postID like ≠ id).
Proof.
  intros Hauth Hcast Hfaults Hpost rb. subst rb.
  unfold delete_post, guarded. rewrite Hauth. run_blog.
  rewrite Hcast, Hfaults.
  cbn [posts comments likes media_files blog_outage].
  rewrite ?Hpost. cbn [posts comments likes media_files blog_outage fst snd].
  split_and!; try done.
  - intros k c [_ Hc]%map_lookup_filter_Some. done.
  - intros like [Hl _]%elem_of_filter. done.
Qed.

(** X29. [DELETE /posts/:id] for an [:id] that names no stored post
    deletes nothing, not even comments or likes that name that id: when the
    id is well formed the answer is 404; when it is malformed the lookup
    throws a [CastError] before the store is asked and no answer is
    sent. *)
Theorem delete_post_missing amb auth p raw b :
  authenticate amb (mkRequest auth) = next p →
  blog_up b →
  (∀ id, castObjectId raw = Some id → posts b !! id = None) →
  let rb := delete_post amb auth raw b in
  rb.1 = match castObjectId raw with
         | Some _ =>
             Done (Answered (mkBlogResponse 404 (Plain "Not Found")))
         | None => Threw (CastError raw)
         end
  ∧ posts rb.2 = posts b
  ∧ comments rb.2 = comments b
  ∧ likes rb.2 = likes b
  ∧ media_files rb.2 = media_files b
  ∧ (castObjectId raw = None → rb.2 = b).
Proof.
  intros Hauth Hup Hpost rb. subst rb. unfold blog_up in Hup.
  unfold delete_post, guarded. rewrite Hauth. run_blog.
  destruct (castObjectId raw) as [id|] eqn:Hcast; [|done].
  rewrite Hup. cbn [posts comments likes media_files blog_outage].
  by rewrite (Hpost id).
Qed.

(** X30. [POST /posts] either creates or leaves nothing behind, whatever
    the request and whatever the store does: either the answer is 201 with
    a post stored under an id no post had, whose author is the user of the
    authenticating token and whose title and content are those of the
    request; or no post is added and, when the upload's file name was new,
    the media directory is exactly as before.  Comments and likes are never
    touched. *)
Theorem post_post_creates_or_cleans_up amb auth req b :
  let rb := post_post amb auth req b in
  comments rb.2 = comments b
  ∧ likes rb.2 = likes b
  ∧ ((∃ post p title,
        rb.1 = Done (Answered (mkBlogResponse 201 (JsonPost post)))
        ∧ authenticate amb (mkRequest auth) = next p
        ∧ post_title req = Some title
        ∧ Post.userID post = payload_id p
        ∧ Post.title post = title
        ∧ Post.content post = post_content req
        ∧ posts b !! Post._id post = None
        ∧ posts rb.2 = <[Post._id post := post]> (posts b))
     ∨ (posts rb.2 = posts b
        ∧ ((∀ file, post_file req = Some file →
                    path file ∉ media_files b) →
           media_files rb.2 = media_files b))).
Proof.
  intros rb. subst rb.
  assert (∀ (f : string) (X : gset string), f ∉ X → (X ∪ {[f]}) ∖ {[f]} = X)
    as Hclean.
  { intros f X Hf. apply set_eq. intros x.
    rewrite elem_of_difference, elem_of_union, elem_of_singleton.
    split; [tauto|]. intros Hx. split; [by left|]. by intros ->. }
  assert (∀ (f : string) (X : gset string), f ∈ X ∪ {[f]}) as Hthere.
  { intros f X. apply elem_of_union_r. by apply elem_of_singleton. }
  assert (∀ ps : gmap N Post.t, ps !! fresh (dom ps) = None) as Hfresh.
  { intros ps. apply not_elem_of_dom, is_fresh. }
  unfold post_post, guarded, multer_media, media_unlink.
  destruct (authenticate amb (mkRequest auth)) as [p|status] eqn:Hauth;
    [|cbn; split_and!; [done..|]; right; by split].
  destruct req as [[title|] content [file|]];
    cbn [post_title post_content post_file]; run_blog.
  - case_decide;
      cbn [posts comments likes media_files blog_outage fst snd].
    + rewrite decide_True by done.
      cbn [posts comments likes media_files blog_outage fst snd].
      split_and!; [done..|]. right. split; [done|].
      intros Hnew. apply Hclean. by apply Hnew.
    + destruct (valid_post _);
        [destruct (blog_outage b) as [|[] ?]|];
        cbn [posts comments likes media_files blog_outage fst snd];
        rewrite ?decide_True by done;
        cbn [posts comments likes media_files blog_outage fst snd];
        (split_and!; [done..|]).
      * left. eexists _, p, title. split_and!; try done. apply Hfresh.
      * right. split; [done|]. intros Hnew. apply Hclean. by apply Hnew.
      * left. eexists _, p, title. split_and!; try done. apply Hfresh.
      * right. split; [done|]. intros Hnew. apply Hclean. by apply Hnew.
  - destruct (valid_post _);
      [destruct (blog_outage b) as [|[] ?]|];
      cbn [posts comments likes media_files blog_outage fst snd];
      (split_and!; [done..|]).
    + left. eexists _, p, title. split_and!; try done. apply Hfresh.
    + right. by split.
    + left. eexists _, p, title. split_and!; try done. apply Hfresh.
    + right. by split.
  - rewrite decide_True by done.
    cbn [posts comments likes media_files blog_outage fst snd].
    split_and!; [done..|]. right. split; [done|].
    intros Hnew. apply Hclean. by apply Hnew.
  - cbn. split_and!; [done..|]. right. by split.
Qed.

End Posts.

(** ** The handlers on the demo deployment *)

#[local] Existing Instance Demo.codec.
#[local] Existing Instance Demo.hasher.
#[local] Existing Instance Demo.env.
#[local] Existing Instance Demo.posix.

Ltac by_computation := vm_compute; first [reflexivity | exact I | done].



Lemma no_char_by_computation (c : ascii) (s : string) :
  bool_decide (c ∈ chars s) = false → ¬ has_char c s.
Proof. apply bool_decide_eq_false_1. Defined.



(** ["garbage"] was never minted: the promise stays pending and the
    handlers do not answer. *)
Lemma verifyRefreshToken_unverified_never_settles_witness :
  jwt_verify "garbage" TOKEN_SECRET (clock Demo.amb) = None
  ∧ verifyRefreshToken Demo.amb "garbage" Demo.world = (Pending, Demo.world)
  ∧ refresh_token Demo.amb (mkRefreshBody (Some "garbage")) Demo.world
    = (Pending, Demo.world)
  ∧ logout Demo.amb (mkRefreshBody (Some "garbage")) Demo.world
    = (Pending, Demo.world).
Proof.
  split; [reflexivity|].
  apply (verifyRefreshToken_unverified_never_settles Demo.amb "garbage"
           Demo.world).
  reflexivity.
Defined.




(** Counterexample to C6 as stated (the two tokens of one call differ even
    with equal expiry windows): with both windows at one hour, the access
    token and the refresh token of one call, signed within the same second,
    are the same string. *)
Lemma generateTokens_same_call_identical :
  ACCESS_TOKEN_EXPIRES = REFRESH_TOKEN_EXPIRES
  ∧ iat_access Demo.amb = iat_refresh Demo.amb
  ∧ generateTokens Demo.amb 7
    = mkTokenPair "7.42.1h.1000.secret" "7.42.1h.1000.secret"
  ∧ ¬ (accessToken (generateTokens Demo.amb 7)
       ≠ refreshToken (generateTokens Demo.amb 7)).
Proof.
  split_and!; [by_computation.. |].
  intros Hdiffer. apply Hdiffer. by_computation.
Defined.

Lemma generateTokens_shared_nonce_witness :
  accessToken (generateTokens Demo.amb 7)
  = refreshToken (generateTokens Demo.amb 7).
Proof.
  destruct (generateTokens_shared_nonce Demo.amb 7) as (_ & _ & Hsame).
  apply Hsame; reflexivity.
Defined.

(** Counterexample to C7 as stated (401 exactly when no token is
    presented, 403 exactly when a presented token fails verification): a
    header with a scheme word and nothing behind it presents no token and
    is refused with 403, as is the empty header; and the header that is
    nothing but alice's valid token ["r1"] is refused with 401. *)
Lemma authenticate_no_token_403_valid_token_401 :
  let nothing := mkRequest (Some "Bearer ") in
  let empty := mkRequest (Some "") in
  let bare := mkRequest (Some "r1") in
  presented_token nothing = None
  ∧ authenticate Demo.amb nothing = next_err 403
  ∧ presented_token empty = None
  ∧ authenticate Demo.amb empty = next_err 403
  ∧ presented_token bare = Some "r1"
  ∧ jwt_verify "r1" TOKEN_SECRET (clock Demo.amb) = Some (mkPayload 7 1)
  ∧ authenticate Demo.amb bare = next_err 401
  ∧ ¬ (∀ req, authenticate Demo.amb req = next_err 401 ↔
              presented_token req = None)
  ∧ ¬ (∀ req, authenticate Demo.amb req = next_err 403 ↔
              ∃ tok, presented_token req = Some tok
                     ∧ jwt_verify tok TOKEN_SECRET (clock Demo.amb) = None).
Proof.
  intros nothing empty bare.
  split_and!; [by_computation.. | |].
  - intros Hclaim. destruct (Hclaim bare) as [Hmissing _].
    specialize (Hmissing ltac:(by_computation)). discriminate Hmissing.
  - intros Hclaim. destruct (Hclaim nothing) as [Hinvalid _].
    destruct (Hinvalid ltac:(by_computation)) as (tok & Htok & _).
    discriminate Htok.
Defined.

(** A header with a scheme word, a token and more behind a second space;
    a scheme word with nothing behind it; a bare token. *)
Lemma authenticate_by_header_shape_witness :
  authenticate Demo.amb (mkRequest (Some "JWT r1 again"))
  = next (mkPayload 7 1)
  ∧ authenticate Demo.amb (mkRequest (Some "Bearer ")) = next_err 403
  ∧ authenticate Demo.amb (mkRequest (Some "r1")) = next_err 401.
Proof.
  destruct (authenticate_by_header_shape Demo.amb
              (mkRequest (Some "JWT r1 again"))) as (_ & Hpiece & _).
  destruct (authenticate_by_header_shape Demo.amb
              (mkRequest (Some "Bearer "))) as (_ & Hnothing & _).
  destruct (authenticate_by_header_shape Demo.amb (mkRequest (Some "r1")))
    as (Hbare & _).
  split_and!.
  - refine (Hpiece "r1" _). right. exists "JWT".
    split_and!; [apply no_char_by_computation; by_computation.. |].
    right. by exists "again".
  - refine (Hnothing "" _). right. exists "Bearer".
    split_and!; [apply no_char_by_computation; by_computation.. |].
    by left.
  - apply Hbare. right. exists "r1".
    split_and!; [done | done |].
    apply no_char_by_computation. by_computation.
Defined.

Lemma missing_field_no_store_access_witness :
  login Demo.amb (mkLoginBody (Some "alice") None) Demo.world
  = (Done (mkResponse 400 (Text "Missing Arguments")), Demo.world)
  ∧ logout Demo.amb (mkRefreshBody None) Demo.world
    = (Done (sendStatus 400), Demo.world)
  ∧ refresh_token Demo.amb (mkRefreshBody None) Demo.world
    = (Done (sendStatus 400), Demo.world).
Proof.
  destruct (missing_field_no_store_access Demo.amb Demo.world)
    as (Hlogin & Hlogout & Hrefresh).
  split_and!.
  - apply Hlogin. right. reflexivity.
  - apply Hlogout. reflexivity.
  - apply Hrefresh. reflexivity.
Defined.

(** A second registration under alice's name, with an avatar uploaded. *)
Lemma register_failure_leaves_nothing_witness :
  let req := mkRegisterRequest (Some "alice") (Some "pw")
               (Some "a@example.com") (Some Demo.upload) in
  let rw := register Demo.amb req Demo.world_uploaded in
  rw.1 = Done (mkResponse 409 (Text "Username Taken"))
  ∧ failed rw.1
  ∧ nothing_left req Demo.world_uploaded rw.2.
Proof.
  intros req rw.
  destruct (register_failure_leaves_nothing Demo.amb req Demo.world_uploaded)
    as [Hfails Hleft].
  assert (failed rw.1) as Hfailed.
  { apply Hfails. apply (username_taken _ _ "alice" Demo.alice); reflexivity. }
  split_and!; [reflexivity | exact Hfailed | exact (Hleft Hfailed)].
Defined.

(** ** The further properties on the second deployment *)

Lemma ids_consistent_by_computation (us : gmap N User) :
  bool_decide (map_Forall (λ k u, _id u = k) us) = true → ids_consistent us.
Proof. intros Hall%bool_decide_eq_true_1 k u Hk. by apply (Hall k u). Defined.

Lemma store_wf_by_computation (us : gmap N User) :
  bool_decide (map_Forall (λ k u, _id u = k) us) = true →
  bool_decide
    (map_Forall
       (λ k1 u1,
          map_Forall (λ k2 u2, username u1 = username u2 → k1 = k2) us)
       us) = true →
  store_wf us.
Proof.
  intros Hids Huniq%bool_decide_eq_true_1. split.
  - by apply ids_consistent_by_computation.
  - intros k1 k2 u1 u2 Hk1 Hk2. by apply (Huniq k1 u1 Hk1 k2 u2 Hk2).
Defined.

Section FlowRuns.

#[local] Existing Instance Flow.codec | 0.
#[local] Existing Instance Flow.env | 0.


(** alice's name with a wrong password. *)
Lemma login_failure_uniform_witness :
  let rw := login Flow.amb1 (mkLoginBody (Some "alice") (Some "guess"))
                  Flow.world in
  rw.1 = Done (mkResponse 401 (JsonError "Authentication failed"))
  ∧ users rw.2 = users Flow.world.
Proof.
  destruct (login_failure_uniform Flow.amb1 "alice" "guess" Flow.world)
    as (Hanswer & Husers & _).
  - by_computation.
  - right. exists Demo.alice. split; by_computation.
  - split; [exact Hanswer | exact Husers].
Defined.


(** A token that verifies for id 9, under which nothing is stored. *)
Lemma verifyRefreshToken_no_write_witness :
  let rw := verifyRefreshToken Flow.amb1 "9.1.7d.1000.secret" Flow.world in
  rw.1 = Threw (Rejected "fail") ∧ users rw.2 = users Flow.world.
Proof.
  destruct (verifyRefreshToken_no_write Flow.amb1 "9.1.7d.1000.secret"
              (mkPayload 9 1) Flow.world)
    as (Hrefused & Husers & _).
  - by_computation.
  - left. by_computation.
  - split; [exact Hrefused | exact Husers].
Defined.

Lemma session_routes_touch_tokens_only_witness :
  tokens_only (users Flow.world)
    (users (refresh_token Flow.amb1 (mkRefreshBody (Some "r1"))
                          Flow.world).2)
  ∧ files (logout Flow.amb1 (mkRefreshBody (Some "r3")) Flow.world).2
    = files Flow.world.
Proof.
  destruct (session_routes_touch_tokens_only Flow.amb1 Flow.world)
    as (_ & Hlogout & Hrefresh).
  - apply ids_consistent_by_computation. by_computation.
  - split.
    + apply (Hrefresh (mkRefreshBody (Some "r1"))).
    + apply (Hlogout (mkRefreshBody (Some "r3"))).
Defined.

Lemma session_routes_keep_store_wf_witness :
  store_wf (users Flow.world)
  ∧ store_wf (users (login Flow.amb1 (mkLoginBody (Some "alice") (Some "pw"))
                           Flow.world).2).
Proof.
  assert (store_wf (users Flow.world)) as Hwf
    by (apply store_wf_by_computation; by_computation).
  split; [exact Hwf|].
  destruct (session_routes_keep_store_wf Flow.amb1 Flow.world Hwf)
    as (Hlogin & _).
  apply Hlogin.
Defined.

Lemma post_register_creates_user_witness :
  let rw := post_register Flow.amb1
              (mkRegisterRequest (Some "carol") (Some "pw")
                 (Some "carol@example.com") (Some Flow.upload))
              Flow.world in
  ∃ u, rw.1 = Done (mkResponse 201 (JsonUser u))
       ∧ username u = "carol" ∧ password u = "$pw" ∧ tokens u = []
       ∧ users Flow.world !! _id u = None
       ∧ users rw.2 !! _id u = Some u
       ∧ "public/avatars/4.png" ∈ files rw.2.
Proof.
  destruct (post_register_creates_user Flow.amb1 "carol" "pw"
              "carol@example.com" Flow.upload Flow.world)
    as (u & Hanswer & Hu & Hnew & Husers & Hfiles & _).
  - discriminate.
  - vm_compute. discriminate.
  - discriminate.
  - discriminate.
  - left. by_computation.
  - by_computation.
  - by_computation.
  - exists u. split_and!; [exact Hanswer | by rewrite Hu.. | exact Hnew | |].
    + rewrite Husers. apply lookup_insert_eq.
    + rewrite Hfiles. apply elem_of_union_r. by apply elem_of_singleton.
Defined.

Lemma register_then_login_witness :
  let req := mkRegisterRequest (Some "carol") (Some "pw")
               (Some "carol@example.com") (Some Flow.upload) in
  let id := fresh (dom (users Flow.world)) in
  let pair := generateTokens Flow.amb2 id in
  let rw := login Flow.amb2 (mkLoginBody (Some "carol") (Some "pw"))
                  (post_register Flow.amb1 req Flow.world).2 in
  rw.1 = Done (mkResponse 200
                 (JsonCredentials (accessToken pair) (refreshToken pair) id))
  ∧ live_tokens id rw.2 = Some [refreshToken pair].
Proof.
  destruct (register_then_login Flow.amb1 Flow.amb2 "carol" "pw"
              "carol@example.com" Flow.upload Flow.world)
    as [Hanswer Hlive].
  - discriminate.
  - vm_compute. discriminate.
  - discriminate.
  - discriminate.
  - left. by_computation.
  - by_computation.
  - by_computation.
  - by_computation.
  - split; [exact Hanswer | exact Hlive].
Defined.

Lemma register_twice_conflict_witness :
  let w1 := (post_register Flow.amb1
               (mkRegisterRequest (Some "carol") (Some "pw")
                  (Some "carol@example.com") (Some Flow.upload))
               Flow.world).2 in
  let rw := post_register Flow.amb2
              (mkRegisterRequest (Some "carol") (Some "other")
                 (Some "c@example.com")
                 (Some (mkFile "public/avatars/5.png" "image/jpeg"))) w1 in
  rw.1 = Done (mkResponse 409 (Text "Username Taken"))
  ∧ users rw.2 = users w1
  ∧ files rw.2 = files w1 ∖ {["public/avatars/5.png"]}.
Proof.
  destruct (register_twice_conflict Flow.amb1 Flow.amb2 "carol" "pw"
              "other" "carol@example.com" "c@example.com" Flow.upload
              (mkFile "public/avatars/5.png" "image/jpeg") Flow.world)
    as (Hanswer & Husers & Hfiles).
  - discriminate.
  - vm_compute. discriminate.
  - discriminate.
  - discriminate.
  - left. by_computation.
  - right. by_computation.
  - by_computation.
  - by_computation.
  - split_and!; [exact Hanswer | exact Husers | exact Hfiles].
Defined.

(** A registration without a username, with an avatar uploaded. *)
Lemma post_register_failure_restores_files_witness :
  let req := mkRegisterRequest None (Some "pw") (Some "c@example.com")
               (Some Flow.upload) in
  let rw := post_register Flow.amb1 req Flow.world in
  users rw.2 = users Flow.world ∧ files rw.2 = files Flow.world.
Proof.
  intros req rw.
  destruct (post_register_failure_restores_files Flow.amb1 req Flow.world)
    as (Husers & _ & Hfiles).
  - intros user Hcreated. vm_compute in Hcreated. discriminate.
  - split; [exact Husers|].
    apply (Hfiles Flow.upload); [reflexivity|].
    apply (bool_decide_eq_false_1 _). by_computation.
Defined.




(** The header the tests send: the scheme [JWT] and a refresh token. *)
Lemma authenticate_any_scheme_witness :
  authenticate Flow.amb1 (mkRequest (Some "JWT r1")) = next (mkPayload 7 1)
  ∧ authenticate Flow.amb1 (mkRequest (Some "Bearer forged"))
    = next_err 403.
Proof.
  destruct (authenticate_any_scheme Flow.amb1 "JWT" "r1") as [Hjwt _].
  { apply no_char_by_computation. by_computation. }
  { apply no_char_by_computation. by_computation. }
  destruct (authenticate_any_scheme Flow.amb1 "Bearer" "forged")
    as [Hbearer _].
  { apply no_char_by_computation. by_computation. }
  { apply no_char_by_computation. by_computation. }
  split; [exact Hjwt | exact Hbearer].
Defined.

(** A Windows path made POSIX. *)
Lemma replaceAll_separators_witness :
  replaceAll "\" "/" "public\avatars\4.png" = "public/avatars/4.png"
  ∧ ¬ has_char "\" (replaceAll "\" "/" "public\avatars\4.png")
  ∧ replaceAll "/" "/" "public/avatars/4.png" = "public/avatars/4.png".
Proof.
  destruct (replaceAll_separators "\" "/" "public\avatars\4.png")
    as (_ & Hnone & _).
  destruct (replaceAll_separators "/" "/" "public/avatars/4.png")
    as (_ & _ & _ & Hsame).
  split_and!; [by_computation | apply Hnone; discriminate | exact Hsame].
Defined.

Section ProfileRuns.

#[local] Existing Instance Demo.hasher | 0.
#[local] Existing Instance Demo.posix | 0.

(** alice, authenticated by one of her refresh tokens, becomes carol. *)
Lemma put_user_renames_witness :
  let rw := put_user Flow.amb1
              (mkUpdateRequest (Some "JWT r1") (Some "carol") None)
              Flow.world in
  rw.1 = Done (Answered (mkResponse 200 (JsonUser Demo.alice)))
  ∧ username <$> users rw.2 !! 7%N = Some "carol"
  ∧ tokens <$> users rw.2 !! 7%N = Some ["r1"; "r2"].
Proof.
  destruct (put_user_renames Flow.amb1 (Some "JWT r1") (mkPayload 7 1)
              "carol" Demo.alice Flow.world
              ltac:(by_computation) ltac:(by_computation)
              ltac:(by_computation) ltac:(by_computation))
    as (Hanswer & Husers & _).
  split; [exact Hanswer|]. rewrite Husers.
  split; by_computation.
Defined.

(** alice asks for bob's name. *)
Lemma put_user_username_taken_witness :
  let rw := put_user Flow.amb1
              (mkUpdateRequest (Some "JWT r1") (Some "bob")
                               (Some Flow.upload))
              Flow.world in
  rw.1 = Done (Answered (mkResponse 409 (Text "Username Taken")))
  ∧ users rw.2 = users Flow.world
  ∧ files rw.2 = files Flow.world ∪ {["public/avatars/4.png"]}.
Proof.
  destruct (put_user_username_taken Flow.amb1 (Some "JWT r1")
              (mkPayload 7 1) "bob" (Some Flow.upload) 8%N Flow.bob
              Flow.world)
    as (Hanswer & Husers & Hfiles).
  - by_computation.
  - by_computation.
  - by_computation.
  - by_computation.
  - split_and!; [exact Hanswer | exact Husers | exact Hfiles].
Defined.

Lemma put_user_replaces_avatar_witness :
  let rw := put_user Flow.amb1
              (mkUpdateRequest (Some "JWT r1") None (Some Flow.upload))
              Flow.world in
  rw.1 = Done (Answered (mkResponse 200 (JsonUser Demo.alice)))
  ∧ "public/avatars/4.png" ∈ files rw.2
  ∧ "public/avatars/1.png" ∉ files rw.2.
Proof.
  destruct (put_user_replaces_avatar Flow.amb1 (Some "JWT r1")
              (mkPayload 7 1) Flow.upload Demo.alice Flow.world)
    as (Hanswer & _ & _ & Hnew & Hold).
  - by_computation.
  - by_computation.
  - apply (bool_decide_eq_true_1 _). by_computation.
  - apply (bool_decide_eq_false_1 _). by_computation.
  - by_computation.
  - split_and!; [exact Hanswer | exact Hnew | exact Hold].
Defined.

(** A token for id 9, under which nothing is stored. *)
Lemma put_user_unknown_user_witness :
  let rw := put_user Flow.amb1
              (mkUpdateRequest (Some "JWT 9.1.7d.1000.secret") (Some "carol")
                               None)
              Flow.world in
  rw.1 = Done (Answered (mkResponse 200 (Text "")))
  ∧ users rw.2 = users Flow.world.
Proof.
  destruct (put_user_unknown_user Flow.amb1 (Some "JWT 9.1.7d.1000.secret")
              (mkPayload 9 1) (Some "carol") None Flow.world)
    as (Hanswer & Husers & _).
  - by_computation.
  - by_computation.
  - intros n [= <-]. by_computation.
  - left. discriminate.
  - by_computation.
  - split; [exact Hanswer | exact Husers].
Defined.

(** bob's avatar file has gone missing; he uploads a new one. *)
Lemma put_user_missing_old_avatar_witness :
  let w := mkWorld (users Flow.world) {[ "public/avatars/1.png" ]} [] [] in
  let rw := put_user Flow.amb1
              (mkUpdateRequest (Some "JWT 8.1.7d.1000.secret") None
                               (Some Flow.upload)) w in
  rw.1 = Threw (ENOENT "public/avatars/3.png")
  ∧ avatar <$> users rw.2 !! 8%N = Some "public/avatars/4.png"
  ∧ "public/avatars/4.png" ∉ files rw.2.
Proof.
  intros w.
  destruct (put_user_missing_old_avatar Flow.amb1
              (Some "JWT 8.1.7d.1000.secret") (mkPayload 8 1) Flow.upload
              Flow.bob w)
    as (Hthrown & Havatar & Hgone).
  - by_computation.
  - by_computation.
  - apply (bool_decide_eq_false_1 _). by_computation.
  - by_computation.
  - by_computation.
  - split_and!; [exact Hthrown | exact Havatar | exact Hgone].
Defined.

Lemma profile_routes_keep_store_wf_witness :
  store_wf (users (put_user Flow.amb1
                     (mkUpdateRequest (Some "JWT r1") (Some "carol") None)
                     Flow.world).2).
Proof.
  destruct (profile_routes_keep_store_wf Flow.amb1 Flow.world) as [_ Hput].
  - apply store_wf_by_computation; by_computation.
  - apply Hput.
Defined.

End ProfileRuns.

Section BlogRuns.

#[local] Existing Instance Demo.posix | 0.
#[local] Existing Instance Flow.mongoose | 0.

(** alice likes her first post, which bob likes already. *)
Lemma post_like_once_witness :
  let rb := post_like Flow.amb1 (Some "JWT r1") Flow.first_post Flow.blog in
  let again := post_like Flow.amb1 (Some "JWT r1") Flow.first_post rb.2 in
  rb.1 = Done (Answered (mkBlogResponse 201 (Plain "Created")))
  ∧ likes rb.2 = likes Flow.blog ∪ {[mkLikeID 7 1]}
  ∧ again.1
    = Done (Answered (mkBlogResponse 409 (Plain "Post Already Liked")))
  ∧ likes again.2 = likes rb.2.
Proof.
  intros rb again.
  destruct (post_like_once Flow.amb1 (Some "JWT r1") (mkPayload 7 1)
              Flow.first_post 1 Flow.blog ltac:(by_computation)
              ltac:(by_computation) ltac:(by_computation))
    as (Hnew & _ & _).
  destruct (post_like_once Flow.amb1 (Some "JWT r1") (mkPayload 7 1)
              Flow.first_post 1 rb.2 ltac:(by_computation)
              ltac:(by_computation) ltac:(by_computation))
    as (_ & Hold & _).
  destruct Hnew as [Hcreated Hlikes];
    [apply (bool_decide_eq_false_1 _); by_computation|].
  destruct Hold as [Hconflict Hsame];
    [apply (bool_decide_eq_true_1 _); by_computation|].
  split_and!; [exact Hcreated | exact Hlikes | exact Hconflict | exact Hsame].
Defined.

Lemma like_then_unlike_restores_witness :
  let liked := post_like Flow.amb1 (Some "JWT r1") Flow.first_post
                         Flow.blog in
  let back := delete_like Flow.amb1 (Some "JWT r1") Flow.first_post
                          liked.2 in
  back.1 = Done (Answered (mkBlogResponse 200 (Plain "OK")))
  ∧ likes back.2 = likes Flow.blog.
Proof.
  destruct (like_then_unlike_restores Flow.amb1 (Some "JWT r1")
              (mkPayload 7 1) Flow.first_post 1 Flow.blog)
    as (_ & Hback & Hlikes & _).
  - by_computation.
  - by_computation.
  - by_computation.
  - apply (bool_decide_eq_false_1 _). by_computation.
  - split; [exact Hback | exact Hlikes].
Defined.

(** bob's like of the first post survives alice's like of it. *)
Lemma likes_routes_frame_witness :
  let b' := (post_like Flow.amb1 (Some "JWT r1") Flow.first_post
                       Flow.blog).2 in
  posts b' = posts Flow.blog
  ∧ comments b' = comments Flow.blog
  ∧ (mkLikeID 8 1 ∈ likes b' ↔ mkLikeID 8 1 ∈ likes Flow.blog).
Proof.
  intros b'.
  destruct (likes_routes_frame Flow.amb1 (Some "JWT r1") Flow.first_post
              Flow.blog b')
    as (Hposts & Hcomments & _ & Hlikes).
  - right. left. reflexivity.
  - split_and!; [exact Hposts | exact Hcomments |].
    destruct (Hlikes (mkLikeID 8 1))
      as [Hsame | (p & post & Hauth & Hcast & Hid)];
      [exact Hsame|].
    vm_compute in Hauth. injection Hauth as <-. discriminate Hid.
Defined.

Lemma delete_post_cascades_witness :
  let rb := delete_post Flow.amb1 (Some "JWT r1") Flow.first_post
                        Flow.blog in
  rb.1 = Done (Answered (mkBlogResponse 200 (JsonPost Flow.hello)))
  ∧ posts rb.2 !! 1%N = None
  ∧ comments rb.2 !! 1%N = None
  ∧ comments rb.2 !! 2%N = Some (Comment.mk "more" 8 2 2)
  ∧ (mkLikeID 8 1 ∉ likes rb.2)
  ∧ mkLikeID 7 2 ∈ likes rb.2
  ∧ media_files rb.2 = media_files Flow.blog ∖ {["public/media/1.png"]}.
Proof.
  intros rb.
  destruct (delete_post_cascades Flow.amb1 (Some "JWT r1") (mkPayload 7 1)
              Flow.first_post 1 Flow.hello Flow.blog)
    as (Hanswer & Hposts & Hcomments & Hlikes & Hmedia).
  - by_computation.
  - by_computation.
  - by_computation.
  - by_computation.
  - intros file [= <-]. apply (bool_decide_eq_true_1 _). by_computation.
  - fold rb in Hanswer, Hposts, Hcomments, Hlikes, Hmedia. split_and!.
    + exact Hanswer.
    + rewrite Hposts. apply lookup_delete_eq.
    + destruct (comments rb.2 !! 1%N) as [c|] eqn:Hc; [|done].
      apply Hcomments in Hc as [Hc Hne]. vm_compute in Hc.
      injection Hc as <-. by destruct Hne.
    + apply Hcomments. split; [by_computation | discriminate].
    + intros [_ Hne]%Hlikes. by destruct Hne.
    + apply Hlikes. split; [|discriminate].
      apply (bool_decide_eq_true_1 _). by_computation.
    + exact Hmedia.
Defined.

Lemma delete_post_not_atomic_witness :
  let b := mkBlog (posts Flow.blog) (comments Flow.blog) (likes Flow.blog)
                  (media_files Flow.blog) [false; false; false; true] in
  let rb := delete_post Flow.amb1 (Some "JWT r1") Flow.first_post b in
  rb.1 = Threw StoreError
  ∧ posts rb.2 !! 1%N = Some Flow.hello
  ∧ comments rb.2 !! 1%N = None
  ∧ (mkLikeID 8 1 ∉ likes rb.2).
Proof.
  intros b rb.
  destruct (delete_post_not_atomic Flow.amb1 (Some "JWT r1")
              (mkPayload 7 1) Flow.first_post 1 Flow.hello [] b)
    as (Hthrown & Hposts & _ & Hcomments & Hlikes).
  - by_computation.
  - by_computation.
  - by_computation.
  - by_computation.
  - fold rb in Hthrown, Hposts, Hcomments, Hlikes. split_and!.
    + exact Hthrown.
    + rewrite Hposts. by_computation.
    + destruct (comments rb.2 !! 1%N) as [c|] eqn:Hc; [|done].
      pose proof (Hcomments _ _ Hc) as Hne. vm_compute in Hc.
      discriminate Hc.
    + intros Hin. by destruct (Hlikes _ Hin).
Defined.

(** An id no post is stored under, and a [:id] that is no id. *)
Lemma delete_post_missing_witness :
  let rb := delete_post Flow.amb1 (Some "JWT r1") Flow.no_post Flow.blog in
  let junk := delete_post Flow.amb1 (Some "JWT r1") "first" Flow.blog in
  rb.1 = Done (Answered (mkBlogResponse 404 (Plain "Not Found")))
  ∧ comments rb.2 = comments Flow.blog
  ∧ likes rb.2 = likes Flow.blog
  ∧ junk = (Threw (CastError "first"), Flow.blog).
Proof.
  intros rb junk.
  destruct (delete_post_missing Flow.amb1 (Some "JWT r1") (mkPayload 7 1)
              Flow.no_post Flow.blog)
    as (Hanswer & _ & Hcomments & Hlikes & _).
  - by_computation.
  - by_computation.
  - intros id [= <-]. by_computation.
  - destruct (delete_post_missing Flow.amb1 (Some "JWT r1") (mkPayload 7 1)
                "first" Flow.blog)
      as (Hthrown & _ & _ & _ & _ & Hsame).
    + by_computation.
    + by_computation.
    + intros id Hid. discriminate Hid.
    + fold junk in Hthrown, Hsame.
      split_and!; [exact Hanswer | exact Hcomments | exact Hlikes |].
      rewrite (surjective_pairing junk).
      by rewrite Hthrown, (Hsame eq_refl).
Defined.

(** A post without a title, with a picture uploaded. *)
Lemma post_post_creates_or_cleans_up_witness :
  let req := mkPostRequest None (Some "text")
               (Some (mkFile "public/media/2.png" "image/png")) in
  let rb := post_post Flow.amb1 (Some "JWT r1") req Flow.blog in
  rb.1 = Done (Answered (mkBlogResponse 400 (Plain "Missing Arguments")))
  ∧ posts rb.2 = posts Flow.blog
  ∧ media_files rb.2 = media_files Flow.blog.
Proof.
  intros req rb.
  destruct (post_post_creates_or_cleans_up Flow.amb1 (Some "JWT r1") req
              Flow.blog)
    as (_ & _ & [(post & p & title & _ & _ & Htitle & _) | [Hposts Hmedia]]).
  - discriminate Htitle.
  - fold rb in Hposts, Hmedia. split_and!; [by_computation | exact Hposts |].
    apply Hmedia. intros file [= <-].
    apply (bool_decide_eq_false_1 _). by_computation.
Defined.

End BlogRuns.

End FlowRuns.
